(** * SAM2-GUI: the session holder [PromptGUI] and its helpers ([mask_app.py])

    A shallow embedding of the non-ML glue of the annotation tool: the
    session object [PromptGUI], the directory listing and image filter, the
    propagation loop that turns per-object logits into one 0/255 mask per
    frame, the mask export, the palette and the compositing helper.

    Conventions.
    - NumPy arrays and torch tensors are a shape together with the flat
      row-major data ([ndarray]).
    - Python floats and float64 arrays are Rocq's primitive binary64 floats,
      so every arithmetic step rounds exactly as in the program.
    - uint8 values are integers in [Z] with the wrap-around written out.
    - A method of [PromptGUI] is a computation in the monad [M]: it receives
      the object, returns a value or raises, and hands back the object as it
      was mutated up to that point.
    - The external collaborators (the SAM2 predictor, the file system) answer
      through explicit reply values and a [world] record. *)

From Stdlib Require Import ZArith List Floats Uint63.
From Stdlib Require Import Strings.String Strings.Ascii.
From stdpp Require Import base tactics option list numbers strings gmap sorting pretty.

Local Open Scope string_scope.
Local Open Scope list_scope.
Local Open Scope Z_scope.

(* ===================================================================== *)
(** * Python exceptions and results *)
(* ===================================================================== *)

(** The exception classes the program can raise or let through. *)
Inductive exn : Type :=
| AttributeError (obj attr : string)
| AssertionError
| IndexError (msg : string)
| ValueError (msg : string)
| OSError (path : string)
| ExternalError (msg : string).

Definition class_name (e : exn) : string :=
  match e with
  | AttributeError _ _ => "AttributeError"
  | AssertionError => "AssertionError"
  | IndexError _ => "IndexError"
  | ValueError _ => "ValueError"
  | OSError _ => "OSError"
  | ExternalError _ => "ExternalError"
  end.

Inductive result (A : Type) : Type :=
| Ok (a : A)
| Raise (e : exn).
Arguments Ok {A} a.
Arguments Raise {A} e.

Global Instance result_ret : MRet result := λ A a, Ok a.
Global Instance result_bind : MBind result := λ A B f r,
  match r with
  | Ok a => f a
  | Raise e => Raise e
  end.

Definition is_ok {A} (r : result A) : bool :=
  match r with Ok _ => true | Raise _ => false end.

(* ===================================================================== *)
(** * NumPy arrays *)
(* ===================================================================== *)

Record ndarray (A : Type) : Type := NdArray {
  shape : list nat;
  data : list A
}.
Arguments NdArray {A} shape data.
Arguments shape {A} _.
Arguments data {A} _.

Definition ndim {A} (a : ndarray A) : nat := length (shape a).

Definition numel (s : list nat) : nat := foldr Nat.mul 1%nat s.

(** [a.squeeze()]: every axis of length one is dropped. *)
Definition squeeze {A} (a : ndarray A) : ndarray A :=
  NdArray (filter (λ d, d ≠ 1%nat) (shape a)) (data a).

(** [a[i]] for an integer [i] in [range(...)]: the [i]-th slice along the
    first axis. *)
Definition getitem {A} (a : ndarray A) (i : nat) : result (ndarray A) :=
  match shape a with
  | [] => Raise (IndexError "too many indices for tensor of dimension 0")
  | n :: rest =>
      if decide (i < n)%nat
      then Ok (NdArray rest (take (numel rest) (drop (i * numel rest) (data a))))
      else Raise (IndexError "index out of range")
  end.

(** [t > 0.0], elementwise.  A NaN logit compares false. *)
Definition gt_zero (t : ndarray float) : ndarray bool :=
  NdArray (shape t) ((λ x, PrimFloat.ltb 0%float x) <$> data t).

(** [np.any(masks, axis=0)] on a Python list of arrays.  The list is first
    stacked ([np.asarray]); the empty list becomes an array of shape [(0,)],
    whose reduction along axis 0 is the 0-dimensional [False]. *)
Definition np_any_axis0 (masks : list (ndarray bool)) : result (ndarray bool) :=
  match masks with
  | [] => Ok (NdArray [] [false])
  | m :: ms =>
      if forallb (λ a, bool_decide (shape a = shape m)) ms
      then Ok (NdArray (shape m)
                 (foldl (λ acc a, zip_with orb acc (data a)) (data m) ms))
      else Raise (ValueError "inhomogeneous shape")
  end.

(** [(~binary).astype(np.uint8) * 255]. *)
Definition invert_to_uint8_255 (binary : ndarray bool) : ndarray Z :=
  NdArray (shape binary)
    ((λ b, (Z.b2z (negb b) * 255) `mod` 256) <$> data binary).

(** [mask.any()] on a uint8 array. *)
Definition ndarray_any (mask : ndarray Z) : bool :=
  existsb (λ v, negb (v =? 0)) (data mask).

(** [mask.astype("uint8")] on a boolean array. *)
Definition astype_uint8 (mask : ndarray bool) : ndarray Z :=
  NdArray (shape mask) (Z.b2z <$> data mask).

(* ===================================================================== *)
(** * Strings and paths *)
(* ===================================================================== *)

(** [c.lower()] on one character.  File names are byte strings here; only
    the ASCII capitals change, which is all that the comparison with the
    three ASCII extensions can see. *)
Definition lower_ascii (c : ascii) : ascii :=
  let n := nat_of_ascii c in
  if ((65 <=? n)%nat && (n <=? 90)%nat)%bool then ascii_of_nat (n + 32) else c.

(** [p.lower()]. *)
Fixpoint lower (p : string) : string :=
  match p with
  | EmptyString => EmptyString
  | String c p' => String (lower_ascii c) (lower p')
  end.

(** [p.rfind(c)]: the highest index of [c] in [p], or [-1]. *)
Fixpoint rfind_from (c : ascii) (p : string) (i : Z) (last : Z) : Z :=
  match p with
  | EmptyString => last
  | String d p' =>
      rfind_from c p' (i + 1) (if Ascii.eqb d c then i else last)
  end.

Definition rfind (c : ascii) (p : string) : Z := rfind_from c p 0 (-1).

(** [p[:i]] and [p[i:]] for [0 <= i]. *)
Definition str_take (i : Z) (p : string) : string :=
  String.substring 0 (Z.to_nat i) p.

Definition str_drop (i : Z) (p : string) : string :=
  String.substring (Z.to_nat i) (String.length p - Z.to_nat i) p.

(** The loop of [genericpath._splitext] that skips leading dots: is there a
    character other than the dot at an index in [[lo, hi)]? *)
Definition has_non_dot (p : string) (lo hi : Z) : bool :=
  existsb
    (λ k, match String.get k p with
          | Some d => negb (Ascii.eqb d ".")
          | None => false
          end)
    (seq (Z.to_nat lo) (Z.to_nat (hi - lo))).

(** [os.path.splitext(p)] (posixpath). *)
Definition splitext (p : string) : string * string :=
  let sepIndex := rfind "/" p in
  let dotIndex := rfind "." p in
  if (sepIndex <? dotIndex) && has_non_dot p (sepIndex + 1) dotIndex
  then (str_take dotIndex p, str_drop dotIndex p)
  else (p, "").

Definition isimage (p : string) : bool :=
  let ext := snd (splitext (lower p)) in
  bool_decide (ext ∈ [".png"; ".jpg"; ".jpeg"]).

(** [sorted(names)]: strings compare lexicographically, character by
    character. *)
Definition sorted (names : list string) : list string :=
  merge_sort String.le names.

(** [Path(p).name]: the final path component (of a path that does not end
    in a slash, as every [dir/entry] of [img_paths]). *)
Definition path_name (p : string) : string :=
  str_drop (rfind "/" p + 1) p.

(** [Path(p).stem]: the final component without its last suffix. *)
Definition stem (p : string) : string :=
  let name := path_name p in
  let i := rfind "." name in
  if (0 <? i) && (i <? Z.of_nat (String.length name) - 1)
  then str_take i name
  else name.

(* ===================================================================== *)
(** * The external collaborators *)
(* ===================================================================== *)

(** The file system as the program reads it: [os.listdir] and
    [imageio.imread], each of which may raise. *)
Record world : Type := World {
  w_listdir : string → option (list string);
  w_imread : string → option (ndarray Z)
}.

(** The calls the program issues to write to the file system. *)
Inductive fs_event : Type :=
| Makedirs (path : string)
| Imwrite (path : string) (mask : ndarray Z).

(** One prompt forwarded to the predictor: frame, object id, points,
    labels. *)
Record prompt : Type := Prompt {
  p_frame_idx : Z;
  p_obj_id : Z;
  p_points : list (Z * Z);
  p_labels : list float
}.

(** The predictor's session ([inference_state]) as far as this program
    drives it: the directory it was opened on and the prompts received since
    the last [reset_state]. *)
Record handle : Type := Handle {
  h_video_path : string;
  h_prompts : list prompt
}.

(** What [init_state] answers. *)
Inductive init_reply : Type :=
| InitRaise (e : exn)
| InitReturn.

(** What [add_new_points_or_box] answers: an exception, or the object ids
    with the logits tensor of shape [(len(obj_ids), 1, H, W)]. *)
Inductive points_reply : Type :=
| PointsRaise (e : exn)
| PointsReturn (out_obj_ids : list Z) (out_mask_logits : ndarray float).

(** One item yielded by [propagate_in_video]. *)
Record frame_out : Type := FrameOut {
  fo_frame_idx : Z;
  fo_obj_ids : list Z;
  fo_mask_logits : ndarray float
}.

(** The whole run of the generator [propagate_in_video]: the items it
    yields, and the exception that ends it if it does not finish. *)
Record propagate_reply : Type := PropagateReply {
  pr_frames : list frame_out;
  pr_error : option exn
}.

(* ===================================================================== *)
(** * The session object *)
(* ===================================================================== *)

(** The attributes of [PromptGUI].  [sam_model] is built by [__init__] and
    never unset, so it is not a field; [inference_state] is not assigned by
    [__init__] and is [None] here as long as the attribute does not exist. *)
Record PromptGUI : Type := mkPromptGUI {
  selected_points : list (Z * Z);
  selected_labels : list float;
  cur_label_val : float;
  frame_index : Z;
  image : option (ndarray Z);
  cur_mask_idx : Z;
  cur_masks : gmap Z (ndarray bool);
  cur_logits : gmap Z (ndarray float);
  index_masks_all : list (ndarray Z);
  color_masks_all : list (ndarray Z);
  img_dir : string;
  img_paths : list string;
  inference_state : option handle
}.

(** [PromptGUI.__init__]. *)
Definition new_PromptGUI : PromptGUI :=
  {| selected_points := [];
     selected_labels := [];
     cur_label_val := 1%float;
     frame_index := 0;
     image := None;
     cur_mask_idx := 0;
     cur_masks := ∅;
     cur_logits := ∅;
     index_masks_all := [];
     color_masks_all := [];
     img_dir := "";
     img_paths := [];
     inference_state := None |}.

(** ** Methods as state-and-exception computations *)

Definition M (A : Type) : Type := PromptGUI → result A * PromptGUI.

Global Instance M_ret : MRet M := λ A a self, (Ok a, self).
Global Instance M_bind : MBind M := λ A B f m self,
  match m self with
  | (Ok a, self') => f a self'
  | (Raise e, self') => (Raise e, self')
  end.

Definition get_self : M PromptGUI := λ self, (Ok self, self).
Definition modify (f : PromptGUI → PromptGUI) : M unit := λ self, (Ok (), f self).
Definition raise {A} (e : exn) : M A := λ self, (Raise e, self).
Definition lift {A} (r : result A) : M A := λ self, (r, self).

(** The object after a method call, whether it returned or raised. *)
Definition exec {A} (m : M A) (self : PromptGUI) : PromptGUI := snd (m self).
(** What the call returned or raised. *)
Definition outcome {A} (m : M A) (self : PromptGUI) : result A := fst (m self).

(** Attribute assignments. *)
Definition set_selected (pts : list (Z * Z)) (lbls : list float)
    (s : PromptGUI) : PromptGUI :=
  mkPromptGUI pts lbls (cur_label_val s) (frame_index s) (image s)
    (cur_mask_idx s) (cur_masks s) (cur_logits s) (index_masks_all s)
    (color_masks_all s) (img_dir s) (img_paths s) (inference_state s).

Definition set_cur_label_val (v : float) (s : PromptGUI) : PromptGUI :=
  mkPromptGUI (selected_points s) (selected_labels s) v (frame_index s)
    (image s) (cur_mask_idx s) (cur_masks s) (cur_logits s)
    (index_masks_all s) (color_masks_all s) (img_dir s) (img_paths s)
    (inference_state s).

Definition set_frame_index (i : Z) (s : PromptGUI) : PromptGUI :=
  mkPromptGUI (selected_points s) (selected_labels s) (cur_label_val s) i
    (image s) (cur_mask_idx s) (cur_masks s) (cur_logits s)
    (index_masks_all s) (color_masks_all s) (img_dir s) (img_paths s)
    (inference_state s).

Definition set_image (img : option (ndarray Z)) (s : PromptGUI) : PromptGUI :=
  mkPromptGUI (selected_points s) (selected_labels s) (cur_label_val s)
    (frame_index s) img (cur_mask_idx s) (cur_masks s) (cur_logits s)
    (index_masks_all s) (color_masks_all s) (img_dir s) (img_paths s)
    (inference_state s).

Definition set_cur_mask_idx (k : Z) (s : PromptGUI) : PromptGUI :=
  mkPromptGUI (selected_points s) (selected_labels s) (cur_label_val s)
    (frame_index s) (image s) k (cur_masks s) (cur_logits s)
    (index_masks_all s) (color_masks_all s) (img_dir s) (img_paths s)
    (inference_state s).

Definition set_color_masks_all (ms : list (ndarray Z)) (s : PromptGUI) : PromptGUI :=
  mkPromptGUI (selected_points s) (selected_labels s) (cur_label_val s)
    (frame_index s) (image s) (cur_mask_idx s) (cur_masks s) (cur_logits s)
    (index_masks_all s) ms (img_dir s) (img_paths s) (inference_state s).

Definition set_img_dir_attr (d : string) (s : PromptGUI) : PromptGUI :=
  mkPromptGUI (selected_points s) (selected_labels s) (cur_label_val s)
    (frame_index s) (image s) (cur_mask_idx s) (cur_masks s) (cur_logits s)
    (index_masks_all s) (color_masks_all s) d (img_paths s)
    (inference_state s).

Definition set_img_paths (ps : list string) (s : PromptGUI) : PromptGUI :=
  mkPromptGUI (selected_points s) (selected_labels s) (cur_label_val s)
    (frame_index s) (image s) (cur_mask_idx s) (cur_masks s) (cur_logits s)
    (index_masks_all s) (color_masks_all s) (img_dir s) ps
    (inference_state s).

Definition set_inference_state (h : option handle) (s : PromptGUI) : PromptGUI :=
  mkPromptGUI (selected_points s) (selected_labels s) (cur_label_val s)
    (frame_index s) (image s) (cur_mask_idx s) (cur_masks s) (cur_logits s)
    (index_masks_all s) (color_masks_all s) (img_dir s) (img_paths s) h.

(** ** The methods *)

Definition clear_points : M (option (ndarray Z) * string) :=
  modify (set_selected [] []);;
  mret (None, "Cleared points, select new points to update mask").

Definition add_new_mask : M (option (ndarray Z) * string) :=
  modify (λ s, set_cur_mask_idx (cur_mask_idx s + 1) s);;
  clear_points;;
  self ← get_self;
  mret (None, "Creating new mask with index " +:+ pretty (cur_mask_idx self)).

(** A Python dict in insertion order: assigning to a key already present
    replaces its value in place. *)
Fixpoint dict_set {V} (k : Z) (v : V) (d : list (Z * V)) : list (Z * V) :=
  match d with
  | [] => [(k, v)]
  | (k', v') :: d' =>
      if decide (k' = k) then (k, v) :: d' else (k', v') :: dict_set k v d'
  end.

(** [idx_mask[mask] = i + 1]: assignment through a boolean mask, which must
    have the shape of [idx_mask]; the value is stored as a uint8. *)
Definition assign_where (idx_mask : ndarray Z) (mask : ndarray bool) (v : Z)
    : result (ndarray Z) :=
  if decide (shape mask = shape idx_mask)
  then Ok (NdArray (shape idx_mask)
             (zip_with (λ old (b : bool), if b then v `mod` 256 else old)
                (data idx_mask) (data mask)))
  else Raise (IndexError "boolean index did not match indexed array").

Definition make_index_mask (masks : list (Z * ndarray bool)) : result (ndarray Z) :=
  match masks with
  | [] => Raise AssertionError
  | (_, first) :: _ =>
      foldl (λ acc '(i, mask), idx_mask ← acc; assign_where idx_mask mask (i + 1))
        (Ok (astype_uint8 first)) masks
  end.

Definition _clear_image : M unit :=
  modify (λ s,
    mkPromptGUI (selected_points s) (selected_labels s) (cur_label_val s)
      0 None 0 ∅ ∅ [] [] (img_dir s) (img_paths s) (inference_state s)).

(** [reset_state] of the predictor: the prompts are discarded. *)
Definition reset_state (h : handle) : handle := Handle (h_video_path h) [].

Definition reset : M unit :=
  _clear_image;;
  self ← get_self;
  match inference_state self with
  | None => raise (AttributeError "PromptGUI" "inference_state")
  | Some h => modify (set_inference_state (Some (reset_state h)))
  end.

Definition set_img_dir (w : world) (dir : string) : M nat :=
  _clear_image;;
  modify (set_img_dir_attr dir);;
  match w_listdir w dir with
  | None => raise (OSError dir)
  | Some entries =>
      modify (set_img_paths
                ((λ p, dir +:+ "/" +:+ p) <$> filter isimage (sorted entries)));;
      self ← get_self;
      mret (length (img_paths self))
  end.

Definition set_input_image (w : world) (i : Z) : M (option (ndarray Z)) :=
  self ← get_self;
  if decide (i < 0 ∨ i >= Z.of_nat (length (img_paths self)))
  then mret (image self)
  else
    clear_points;;
    modify (set_frame_index i);;
    match img_paths self !! Z.to_nat i with
    | None => raise (IndexError "list index out of range")
    | Some path =>
        match w_imread w path with
        | None => raise (OSError path)
        | Some img => modify (set_image (Some img));; mret (Some img)
        end
    end.

Definition get_sam_features (r : init_reply) : M (string * option (ndarray Z)) :=
  self ← get_self;
  match r with
  | InitRaise e => raise e
  | InitReturn =>
      modify (set_inference_state
                (Some (reset_state (Handle (img_dir self) []))));;
      mret ("SAM features extracted. Click points to update mask, and submit when ready to start tracking",
            image self)
  end.

Definition set_positive : M string :=
  modify (set_cur_label_val 1%float);;
  mret "Selecting positive points. Submit the mask to start tracking".

Definition set_negative : M string :=
  modify (set_cur_label_val 0%float);;
  mret "Selecting negative points. Submit the mask to start tracking".

(** The dict comprehension of [get_sam_mask]:
    [{id: (logits[i] > 0.0).squeeze() for i, id in enumerate(ids)}]. *)
Fixpoint sam_masks (i : nat) (ids : list Z) (logits : ndarray float)
    (acc : list (Z * ndarray bool)) : result (list (Z * ndarray bool)) :=
  match ids with
  | [] => Ok acc
  | id :: ids' =>
      t ← getitem logits i;
      sam_masks (S i) ids' logits (dict_set id (squeeze (gt_zero t)) acc)
  end.

Definition get_sam_mask (r : points_reply) (frame_idx : Z)
    (input_points : list (Z * Z)) (input_labels : list float)
    : M (list (Z * ndarray bool)) :=
  self ← get_self;
  match inference_state self with
  | None => raise (AttributeError "PromptGUI" "inference_state")
  | Some h =>
      match r with
      | PointsRaise e => raise e
      | PointsReturn out_obj_ids out_mask_logits =>
          modify (set_inference_state
                    (Some (Handle (h_video_path h)
                             (h_prompts h ++
                                [Prompt frame_idx (cur_mask_idx self)
                                   input_points input_labels]))));;
          lift (sam_masks 0 out_obj_ids out_mask_logits [])
      end
  end.

Definition add_point (r : points_reply) (frame_idx i j : Z) : M (ndarray Z) :=
  modify (λ s, set_selected (selected_points s ++ [(j, i)]) (selected_labels s) s);;
  modify (λ s, set_selected (selected_points s) (selected_labels s ++ [cur_label_val s]) s);;
  self ← get_self;
  masks ← get_sam_mask r frame_idx (selected_points self) (selected_labels self);
  lift (make_index_mask masks).

(** ** Propagation *)

(** The list comprehension of [run_tracker]:
    [[(mask_logits[i] > 0.0).squeeze() for i in range(len(obj_ids))]]. *)
Definition bool_masks (f : frame_out) : result (list (ndarray bool)) :=
  mapM (λ i, t ← getitem (fo_mask_logits f) i; mret (squeeze (gt_zero t)))
    (seq 0 (length (fo_obj_ids f))).

(** The body of the loop for one yielded item: the 0/255 mask of a frame. *)
Definition frame_grayscale (f : frame_out) : result (ndarray Z) :=
  masks ← bool_masks f;
  binary ← np_any_axis0 masks;
  mret (invert_to_uint8_255 binary).

(** The loop over the generator, filling the dict [video_masks]. *)
Fixpoint track_frames (frames : list frame_out) (video_masks : gmap Z (ndarray Z))
    : result (gmap Z (ndarray Z)) :=
  match frames with
  | [] => Ok video_masks
  | f :: frames' =>
      grayscale ← frame_grayscale f;
      track_frames frames' (<[fo_frame_idx f := grayscale]> video_masks)
  end.

(** [sorted(video_masks)]: the keys in increasing order. *)
Definition sorted_keys (video_masks : gmap Z (ndarray Z)) : list Z :=
  merge_sort Z.le (fst <$> map_to_list video_masks).

(** [[video_masks[i] for i in sorted(video_masks)]]. *)
Definition masks_in_order (video_masks : gmap Z (ndarray Z)) : list (ndarray Z) :=
  omap (λ i, video_masks !! i) (sorted_keys video_masks).

Definition run_tracker (r : propagate_reply) : M (string * string) :=
  self ← get_self;
  match inference_state self with
  | None => raise (AttributeError "PromptGUI" "inference_state")
  | Some _ =>
      video_masks ← lift (track_frames (pr_frames r) ∅);
      match pr_error r with
      | Some e => raise e
      | None =>
          modify (set_color_masks_all (masks_in_order video_masks));;
          self' ← get_self;
          mret ("",
                "Created binary masks for "
                +:+ pretty (length (color_masks_all self'))
                +:+ " frames."
                +:+ " " +:+ "Run `save_masks_to_dir()` to write them to disk.")
      end
  end.

(** ** Export *)

Definition no_masks_warning : string :=
  "No masks to export. Did you run tracking first?".
Definition all_empty_warning : string :=
  "All masks are empty – nothing to save.".

(** The writing loop of [save_masks_to_dir] over
    [zip(self.img_paths, masks)]: the outcome and the writes issued. *)
Fixpoint write_masks (output_dir : string) (pairs : list (string * ndarray Z))
    : result unit * list fs_event :=
  match pairs with
  | [] => (Ok (), [])
  | (img_path, mask) :: pairs' =>
      if decide (ndim mask ≠ 2%nat)
      then (Raise (ValueError "Expected 2-D mask"), [])
      else
        let name := stem img_path in
        let out_path := output_dir +:+ "/" +:+ name +:+ ".mask.png" in
        let '(r, evs) := write_masks output_dir pairs' in
        (r, Imwrite out_path mask :: evs)
  end.

(** [save_masks_to_dir]: the message returned (or the exception) together
    with the file-system calls issued, in order.  The object is not
    modified. *)
Definition save_masks_to_dir (self : PromptGUI) (output_dir : string)
    : result string * list fs_event :=
  let masks := color_masks_all self in
  match masks with
  | [] => (Ok no_masks_warning, [])
  | _ :: _ =>
      if negb (existsb ndarray_any masks)
      then (Ok all_empty_warning, [])
      else
        let '(r, evs) := write_masks output_dir (zip (img_paths self) masks) in
        (r ;; mret ("Saved " +:+ pretty (length masks) +:+ " masks to "
                    +:+ output_dir +:+ "!"),
         Makedirs output_dir :: evs)
  end.

(** ** The controls of the GUI *)

(** The user-facing controls wired in [make_demo]; the ones that call the
    predictor carry its reply. *)
Inductive event : Type :=
| EvSetImgDir (dir : string)
| EvSetInputImage (i : Z)
| EvGetSamFeatures (r : init_reply)
| EvReset
| EvClearPoints
| EvSetPositive
| EvSetNegative
| EvAddPoint (r : points_reply) (frame_idx i j : Z)
| EvAddNewMask
| EvRunTracker (r : propagate_reply)
| EvSaveMasks (output_dir : string).

(** One handler runs to completion; an exception leaves the object as it
    was mutated so far. *)
Definition handle_event (w : world) (ev : event) (self : PromptGUI) : PromptGUI :=
  match ev with
  | EvSetImgDir dir => exec (set_img_dir w dir) self
  | EvSetInputImage i => exec (set_input_image w i) self
  | EvGetSamFeatures r => exec (get_sam_features r) self
  | EvReset => exec reset self
  | EvClearPoints => exec clear_points self
  | EvSetPositive => exec set_positive self
  | EvSetNegative => exec set_negative self
  | EvAddPoint r frame_idx i j => exec (add_point r frame_idx i j) self
  | EvAddNewMask => exec add_new_mask self
  | EvRunTracker r => exec (run_tracker r) self
  | EvSaveMasks _ => self
  end.

Definition run_events (w : world) (evs : list event) (self : PromptGUI) : PromptGUI :=
  foldl (λ s ev, handle_event w ev s) self evs.

(* ===================================================================== *)
(** * Visualization helpers *)
(* ===================================================================== *)

(** ** float64 and uint8 *)

(** An integer as a float64 (exact below 2^53). *)
Definition float_of_Z (z : Z) : float :=
  if z <? 0
  then PrimFloat.opp (PrimFloat.of_uint63 (Uint63.of_Z (- z)))
  else PrimFloat.of_uint63 (Uint63.of_Z z).

(** The integer part of a float64, rounding toward zero: the magnitude
    [m * 2^e] with its fractional bits shifted out, then the sign (0 for an
    infinity or a NaN, whose conversion C leaves undefined). *)
Definition float_trunc (x : float) : Z :=
  match Prim2SF x with
  | S754_finite s m e =>
      let a := if 0 <=? e
               then Z.shiftl (Z.pos m) e
               else Z.shiftr (Z.pos m) (- e) in
      if s then - a else a
  | _ => 0
  end.

(** [x.astype("uint8")] on one float64. *)
Definition float_to_uint8 (x : float) : Z := float_trunc x `mod` 256.

(** ** The palette *)

(** [np.linspace(0, 1, num)]: [num] evenly spaced samples, computed as
    [i * step + start] with [step = (stop - start) / (num - 1)], the last
    one set to [stop].  A negative [num] is refused. *)
Definition linspace01 (num : Z) : result (list float) :=
  if num <? 0 then Raise (ValueError "Number of samples must be non-negative")
  else
    let div := num - 1 in
    let delta := (1 - 0)%float in
    let step := (delta / float_of_Z div)%float in
    let y (i : Z) : float :=
      if 0 <? div then (float_of_Z i * step + 0)%float
      else (float_of_Z i * delta + 0)%float in
    Ok ((λ i : nat,
           if ((1 <? num) && (Z.of_nat i =? num - 1))%bool then 1%float
           else y (Z.of_nat i))
          <$> seq 0 (Z.to_nat num)).

(** [hues[1:-1]]. *)
Definition slice_1_m1 {A} (l : list A) : list A :=
  take (length l - 1 - 1) (drop 1 l).

(** [x % 1.0] on floats: the remainder has the sign of the divisor. *)
Definition fmod1 (x : float) : float :=
  match Prim2SF x with
  | S754_nan | S754_infinity _ => PrimFloat.nan
  | _ =>
      let r := (x - float_of_Z (float_trunc x))%float in
      if PrimFloat.ltb r 0 then (r + 1)%float
      else if PrimFloat.eqb r 0 then 0%float
      else r
  end.

Definition ONE_THIRD : float := (1 / 3)%float.
Definition ONE_SIXTH : float := (1 / 6)%float.
Definition TWO_THIRD : float := (2 / 3)%float.

(** [colorsys._v]. *)
Definition _v (m1 m2 hue : float) : float :=
  let hue := fmod1 hue in
  if PrimFloat.ltb hue ONE_SIXTH then (m1 + (m2 - m1) * hue * 6)%float
  else if PrimFloat.ltb hue 0.5 then m2
  else if PrimFloat.ltb hue TWO_THIRD
       then (m1 + (m2 - m1) * (TWO_THIRD - hue) * 6)%float
  else m1.

(** [colorsys.hls_to_rgb]. *)
Definition hls_to_rgb (h l s : float) : float * float * float :=
  if PrimFloat.eqb s 0 then (l, l, l)
  else
    let m2 := if PrimFloat.leb l 0.5 then (l * (1 + s))%float
              else (l + s - l * s)%float in
    let m1 := (2 * l - m2)%float in
    (_v m1 m2 (h + ONE_THIRD)%float, _v m1 m2 h, _v m1 m2 (h - ONE_THIRD)%float).

(** [get_hls_palette(n_colors, lightness, saturation)]: the rows of the
    [(n_colors, 3)] uint8 array returned. *)
Definition get_hls_palette_with (n_colors : Z) (lightness saturation : float)
    : result (list (Z * Z * Z)) :=
  all_hues ← linspace01 (n_colors + 1);
  let hues := slice_1_m1 all_hues in
  let palette :=
    (0%float, 0%float, 0%float)
    :: ((λ h_i, hls_to_rgb h_i lightness saturation) <$> hues) in
  mret ((λ '(r, g, b),
           (float_to_uint8 (255 * r)%float,
            float_to_uint8 (255 * g)%float,
            float_to_uint8 (255 * b)%float)) <$> palette).

(** The call with the default lightness 0.5 and saturation 0.7. *)
Definition get_hls_palette (n_colors : Z) : result (list (Z * Z * Z)) :=
  get_hls_palette_with n_colors 0.5%float (7 / 10)%float.

(** ** Compositing *)

(** [compose_img_mask] at one pixel channel:
    [out_f = fac * img / 255 + (1 - fac) * color_mask / 255] and
    [out_u = (255 * out_f).astype("uint8")]. *)
Definition compose_pixel (fac : float) (img color_mask : Z) : Z :=
  let out_f := (fac * float_of_Z img / 255
                + (1 - fac) * float_of_Z color_mask / 255)%float in
  float_to_uint8 (255 * out_f)%float.

(** [compose_img_mask(img, color_mask, fac)] on two uint8 arrays of the same
    shape (the frame and [palette[index_mask]]). *)
Definition compose_img_mask (img color_mask : ndarray Z) (fac : float)
    : result (ndarray Z) :=
  if decide (shape img = shape color_mask)
  then Ok (NdArray (shape img)
             (zip_with (compose_pixel fac) (data img) (data color_mask)))
  else Raise (ValueError "operands could not be broadcast together").

(* ===================================================================== *)
(** * Notions used to state the properties *)
(* ===================================================================== *)


(** A uint8 value. *)
Definition is_uint8 (v : Z) : Prop := 0 <= v < 256.

(** The state the session is in once everything tied to a frame directory
    has been discarded. *)
Definition empty_session (s : PromptGUI) : Prop :=
  cur_mask_idx s = 0 ∧ selected_points s = [] ∧ selected_labels s = [] ∧
  cur_masks s = ∅ ∧ cur_logits s = ∅ ∧
  index_masks_all s = [] ∧ color_masks_all s = [] ∧
  image s = None ∧ frame_index s = 0.

(** A yielded item whose logits tensor has a first axis at least as long as
    the list of object ids, and data filling its shape. *)
Definition wf_frame (f : frame_out) : Prop :=
  match shape (fo_mask_logits f) with
  | [] => False
  | n :: rest =>
      (length (fo_obj_ids f) ≤ n)%nat ∧
      length (data (fo_mask_logits f)) = (n * numel rest)%nat
  end.

(** The shape and the number of pixels of one object's slice. *)
Definition frame_shape (f : frame_out) : list nat := tail (shape (fo_mask_logits f)).
Definition frame_pixels (f : frame_out) : nat := numel (frame_shape f).

(** The boolean mask of object number [i] of a yielded item. *)
Definition object_mask (f : frame_out) (i : nat) : ndarray bool :=
  squeeze
    (gt_zero
       (NdArray (frame_shape f)
          (take (frame_pixels f)
             (drop (i * frame_pixels f) (data (fo_mask_logits f)))))).

(** Is the logit of object number [i] positive at flat pixel position [p]? *)
Definition object_covers (f : frame_out) (i p : nat) : bool :=
  match data (fo_mask_logits f) !! (i * frame_pixels f + p)%nat with
  | Some x => PrimFloat.ltb 0%float x
  | None => false
  end.

(** Is at least one object's mask true at pixel position [p]? *)
Definition some_object_covers (f : frame_out) (p : nat) : bool :=
  existsb (λ i, object_covers f i p) (seq 0 (length (fo_obj_ids f))).

(** The item that decides the mask of frame [k]: the last one yielded for
    that index. *)
Definition last_yield (k : Z) (frames : list frame_out) : option frame_out :=
  last (filter (λ f, fo_frame_idx f = k) frames).

(** The stored mask [g] is the complement of the OR of the objects of [f]:
    0 where some object is present, 255 elsewhere, in the squeezed shape of
    one slice. *)
Definition inverted_or_of (f : frame_out) (g : ndarray Z) : Prop :=
  shape g = filter (λ d, d ≠ 1%nat) (frame_shape f) ∧
  length (data g) = frame_pixels f ∧
  ∀ p, (p < frame_pixels f)%nat →
       data g !! p = Some (if some_object_covers f p then 0 else 255).

(** Follows the spec's words: the per-object masks of a frame collapsed by
    logical OR, a pixel being foreground (255) exactly when at least one
    object's mask is true there, background (0) otherwise. *)
Definition spec_or_mask (f : frame_out) : ndarray Z :=
  NdArray (filter (λ d, d ≠ 1%nat) (frame_shape f))
    ((λ p, if some_object_covers f p then 255 else 0) <$> seq 0 (frame_pixels f)).

(** Follows the spec's words: an out-of-range index clamped to the valid
    range [[0, k-1]]. *)
Definition spec_clamp (i k : Z) : Z := Z.max 0 (Z.min i (k - 1)).

(** Follows the spec's words: the call failed with the explicit error kind
    NoActiveSession. *)
Definition fails_with_NoActiveSession {A} (r : result A) : Prop :=
  ∃ e, r = Raise e ∧ class_name e = "NoActiveSession".




(** The uint8 values, for exhaustive checks. *)
Definition all_uint8 : list Z := Z.of_nat <$> seq 0 256.


(** ** Concrete inputs *)

(** A directory with three frames and a text file; every frame reads as a
    one-pixel RGB image. *)
Definition demo_world : world :=
  World
    (λ d, if decide (d = "root/images/seq")
          then Some ["00002.png"; "notes.txt"; "00001.png"; "00003.JPG"]
          else None)
    (λ p, Some (NdArray [1; 1; 3]%nat [10; 20; 30])).

(** One object on a 2x2 frame, present at the first pixel only. *)
Definition demo_logits : ndarray float :=
  NdArray [1; 1; 2; 2]%nat [1.5; -1; -2; 0]%float.

Definition demo_points_reply : points_reply := PointsReturn [0] demo_logits.

(** A session: the directory is loaded, the predictor initialised, frame 1
    selected and one point clicked. *)
Definition demo_session : PromptGUI :=
  run_events demo_world
    [EvSetImgDir "root/images/seq"; EvGetSamFeatures InitReturn;
     EvSetInputImage 1; EvAddPoint demo_points_reply 1 0 0]
    new_PromptGUI.

(** A propagation over the three frames, yielded in frame order: the object
    is at the first pixel of frame 0, everywhere on frame 1 and nowhere on
    frame 2. *)
Definition demo_propagation : propagate_reply :=
  PropagateReply
    [FrameOut 0 [0] demo_logits;
     FrameOut 1 [0] (NdArray [1; 1; 2; 2]%nat [2; 3; 0.5; 1]%float);
     FrameOut 2 [0] (NdArray [1; 1; 2; 2]%nat [-1; -3; 0; -0.5]%float)]
    None.

Definition demo_tracked : PromptGUI :=
  exec (run_tracker demo_propagation) demo_session.

(** A propagation whose second item reports no object at all. *)
Definition demo_propagation_no_object : propagate_reply :=
  PropagateReply
    [FrameOut 0 [0] demo_logits;
     FrameOut 1 [] (NdArray [0; 1; 2; 2]%nat []);
     FrameOut 2 [0] demo_logits]
    None.

(** ** Notions for the session invariants *)

(** A label value set by the polarity toggles. *)
Definition label_binary (l : float) : Prop := l = 1%float ∨ l = 0%float.

(** The polarity in force and every recorded label are 1.0 or 0.0. *)
Definition labels_binary (s : PromptGUI) : Prop :=
  label_binary (cur_label_val s) ∧ Forall label_binary (selected_labels s).

(** The frame index designates a loaded frame, or is 0. *)
Definition frame_index_valid (s : PromptGUI) : Prop :=
  frame_index s = 0 ∨ 0 <= frame_index s < Z.of_nat (length (img_paths s)).

(** The number of "Add new mask" clicks since the last click that loads a
    directory or resets. *)
Definition masks_started (evs : list event) : Z :=
  foldl (λ n ev,
           match ev with
           | EvSetImgDir _ | EvReset => 0
           | EvAddNewMask => n + 1
           | _ => n
           end) 0 evs.

(** The attributes that no method assigns after [__init__] and
    [_clear_image]. *)
Definition unused_state_empty (s : PromptGUI) : Prop :=
  cur_masks s = ∅ ∧ cur_logits s = ∅ ∧ index_masks_all s = [].

(** ** Notions for the index mask *)

(** The value of the index mask at flat pixel position [p] for the reply
    [f] of the predictor: the objects are visited in the order in which
    they are listed, each one writing its id plus one where its logit is
    positive; 0 is left where no object is present. *)
Definition index_pixel (f : frame_out) (p : nat) : Z :=
  foldl (λ acc '(i, id), if object_covers f i p then id + 1 else acc)
    0 (zip (seq 0 (length (fo_obj_ids f))) (fo_obj_ids f)).

(** Object ids whose successor fits a uint8, so that the stores of
    [make_index_mask] do not overflow. *)
Definition ids_fit_uint8 (ids : list Z) : Prop :=
  Forall (λ id, 0 <= id < 255) ids.

(** Two objects with ids 3 and 5 on a 2x2 frame: object 3 at pixels 0 and
    1, object 5 at pixels 1 and 2. *)
Definition demo_two_objects : ndarray float :=
  NdArray [2; 1; 2; 2]%nat [1; 1; -1; -1; -1; 1; 1; -1]%float.

(** A mask with the values 0 and 255 only. *)
Definition binary_mask (g : ndarray Z) : Prop :=
  Forall (λ v, v = 0 ∨ v = 255) (data g).

(** ** More concrete sessions *)

(** The session after a propagation that yields only the first two of the
    three frames. *)
Definition demo_tracked_short : PromptGUI :=
  exec (run_tracker (PropagateReply (take 2 (pr_frames demo_propagation)) None))
    demo_session.


(* ===================================================================== *)
(** * The handlers defined in [make_demo] *)
(* ===================================================================== *)

(** [get_mask_dir]. *)
Definition get_mask_dir (root_dir mask_name seq_name : string) : string :=
  root_dir +:+ "/" +:+ mask_name +:+ "/" +:+ seq_name.


(** [select_image_dir]. *)
Definition select_image_dir (root_dir img_name seq_name : string)
    : string * string :=
  let img_dir := root_dir +:+ "/" +:+ img_name +:+ "/" +:+ seq_name in
  (seq_name, img_dir).

(** The default of the parameters [img_name] and [mask_name] of
    [make_demo]. *)
Definition default_img_name : string := "images".
Definition default_mask_name : string := "images".

(** The demo directory after an export with the default names: the masks
    lie next to the frames. *)
Definition demo_world_after_export : world :=
  World
    (λ d, if decide (d = "root/images/seq")
          then Some ["00001.mask.png"; "00001.png"; "00002.mask.png";
                     "00002.png"; "00003.JPG"; "00003.mask.png"]
          else None)
    (λ p, Some (NdArray [1; 1; 3]%nat [10; 20; 30])).

(** [listdir(dir)], the helper of the module: the sorted entries of an
    existing directory, the empty list for [None] or for a path that is not
    a directory.  [isdir] answers [os.path.isdir]. *)
Definition listdir (isdir : string → bool) (w : world) (dir : option string)
    : result (list string) :=
  match dir with
  | Some d =>
      if isdir d
      then match w_listdir w d with
           | Some entries => Ok (sorted entries)
           | None => Raise (OSError d)
           end
      else Ok []
  | None => Ok []
  end.

(** [make_time(seconds)] of [extract_frames], for a whole number of
    seconds: [datetime.time(seconds // 3600, (seconds % 3600) // 60,
    seconds % 60)], which refuses a field outside its range. *)
Definition make_time (seconds : Z) : result (Z * Z * Z) :=
  let hour := seconds `div` 3600 in
  let minute := (seconds `mod` 3600) `div` 60 in
  let second := seconds `mod` 60 in
  if negb ((0 <=? hour) && (hour <? 24))
  then Raise (ValueError "hour must be in 0..23")
  else if negb ((0 <=? minute) && (minute <? 60))
  then Raise (ValueError "minute must be in 0..59")
  else if negb ((0 <=? second) && (second <? 60))
  then Raise (ValueError "second must be in 0..59")
  else Ok (hour, minute, second).

(** A field of [strftime]: two digits, zero padded. *)
Definition pad2 (n : Z) : string :=
  if n <? 10 then "0" +:+ pretty n else pretty n.

(** [t.strftime("%H:%M:%S")]. *)
Definition strftime_HMS (t : Z * Z * Z) : string :=
  let '(hour, minute, second) := t in
  pad2 hour +:+ ":" +:+ pad2 minute +:+ ":" +:+ pad2 second.

(** What [extract_frames] does to the system, in order. *)
Inductive proc_event : Type :=
| OsMakedirs (path : string)
| Print (text : string)
| SubprocessCall (cmd : string).

(** The command line built by [extract_frames]. *)
Definition ffmpeg_cmd (start_time end_time vid_path : string) (height fps : Z)
    (out_dir ext : string) : string :=
  "ffmpeg -ss " +:+ start_time +:+ " -to " +:+ end_time +:+ " -i " +:+ vid_path
  +:+ " " +:+ "-vf 'scale=-1:" +:+ pretty height +:+ ",fps=" +:+ pretty fps
  +:+ "' " +:+ out_dir +:+ "/%05d." +:+ ext.

(** [extract_frames], for whole numbers of seconds, frames per second and
    pixels: the value returned (or the exception) and the system calls
    issued.  The exit status of the command is not looked at. *)
Definition extract_frames (isdir : string → bool) (w : world)
    (root_dir vid_name img_name vid_file : string) (start end_ fps height : Z)
    (ext : string) : result (string * list string) * list proc_event :=
  let seq_name := (splitext vid_file).1 in
  let vid_path := root_dir +:+ "/" +:+ vid_name +:+ "/" +:+ vid_file in
  let out_dir := root_dir +:+ "/" +:+ img_name +:+ "/" +:+ seq_name in
  match make_time start with
  | Raise e => (Raise e, [OsMakedirs out_dir])
  | Ok t_start =>
      match make_time end_ with
      | Raise e => (Raise e, [OsMakedirs out_dir])
      | Ok t_end =>
          let cmd := ffmpeg_cmd (strftime_HMS t_start) (strftime_HMS t_end)
                       vid_path height fps out_dir ext in
          let img_root := root_dir +:+ "/" +:+ img_name in
          (img_dirs ← listdir isdir w (Some img_root); mret (out_dir, img_dirs),
           [OsMakedirs out_dir; Print cmd; SubprocessCall cmd])
      end
  end.

(** [update_image_dir]: the maximum of the frame slider and the message. *)
Definition update_image_dir (w : world) (root_dir img_name seq_name : string)
    : M (Z * string) :=
  let img_dir := root_dir +:+ "/" +:+ img_name +:+ "/" +:+ seq_name in
  num_imgs ← set_img_dir w img_dir;
  mret (Z.of_nat num_imgs - 1,
        "Loaded " +:+ pretty num_imgs +:+ " images from " +:+ img_dir
        +:+ ". Choose a frame to run SAM!").

(** ** Checks of the helpers by evaluation *)

(** The default blend at one pair of uint8 values: the result is the mean
    rounded down or one below it, and it is half the image value, rounded
    down, when the mask value is 0. *)
Definition compose_half_check (x c : Z) : bool :=
  let v := compose_pixel 0.5 x c in
  ((x + c) `div` 2 - 1 <=? v) && (v <=? (x + c) `div` 2)
  && ((negb (c =? 0)) || (v =? x `div` 2)).

(** The colors of the palette of [n] entries are pairwise distinct. *)
Definition palette_distinct (n : Z) : bool :=
  match get_hls_palette n with
  | Ok palette => bool_decide (NoDup palette)
  | Raise _ => false
  end.

(** The accumulated points and labels have the same number of entries. *)
Definition points_labels_agree (s : PromptGUI) : Prop :=
  length (selected_points s) = length (selected_labels s).

(* ===================================================================== *)
(** * Properties of the session object *)
(* ===================================================================== *)

(** Unfolds the monad so that a method becomes a function of the object. *)
Ltac run_method :=
  cbv [exec outcome mbind mret M_bind M_ret get_self modify raise lift].

Section Session.

Context (w : world).

(** ** What each method does to the object *)

Lemma clear_points_run self :
  clear_points self =
  (Ok (None, "Cleared points, select new points to update mask"),
   set_selected [] [] self).
Proof. reflexivity. Qed.

Lemma _clear_image_run self :
  _clear_image self =
  (Ok (),
   mkPromptGUI (selected_points self) (selected_labels self)
     (cur_label_val self) 0 None 0 ∅ ∅ [] [] (img_dir self) (img_paths self)
     (inference_state self)).
Proof. reflexivity. Qed.

Lemma reset_outcome self :
  outcome reset self =
  match inference_state self with
  | None => Raise (AttributeError "PromptGUI" "inference_state")
  | Some _ => Ok ()
  end.
Proof.
  unfold reset. run_method. rewrite _clear_image_run. simpl.
  destruct (inference_state self); reflexivity.
Qed.

Lemma reset_clears self :
  let self' := exec reset self in
  cur_mask_idx self' = 0 ∧ frame_index self' = 0 ∧ image self' = None ∧
  cur_masks self' = ∅ ∧ cur_logits self' = ∅ ∧
  index_masks_all self' = [] ∧ color_masks_all self' = [] ∧
  selected_points self' = selected_points self ∧
  selected_labels self' = selected_labels self.
Proof.
  unfold reset. run_method. rewrite _clear_image_run. simpl.
  destruct (inference_state self); simpl; repeat split; reflexivity.
Qed.

Lemma set_img_dir_run self dir :
  set_img_dir w dir self =
  let cleared :=
    mkPromptGUI (selected_points self) (selected_labels self)
      (cur_label_val self) 0 None 0 ∅ ∅ [] [] dir (img_paths self)
      (inference_state self) in
  match w_listdir w dir with
  | None => (Raise (OSError dir), cleared)
  | Some entries =>
      let paths := (λ p, dir +:+ "/" +:+ p) <$> filter isimage (sorted entries) in
      (Ok (length paths), set_img_paths paths cleared)
  end.
Proof.
  unfold set_img_dir. run_method. rewrite _clear_image_run. simpl.
  destruct (w_listdir w dir); reflexivity.
Qed.

Lemma set_input_image_out_of_range self i :
  i < 0 ∨ i >= Z.of_nat (length (img_paths self)) →
  set_input_image w i self = (Ok (image self), self).
Proof.
  intros Hi. unfold set_input_image. run_method.
  destruct (decide _) as [_|Hn]; [reflexivity | contradiction].
Qed.

Lemma set_input_image_in_range self i :
  0 <= i < Z.of_nat (length (img_paths self)) →
  ∃ path, img_paths self !! Z.to_nat i = Some path ∧
    set_input_image w i self =
    match w_imread w path with
    | Some img =>
        (Ok (Some img),
         set_image (Some img) (set_frame_index i (set_selected [] [] self)))
    | None =>
        (Raise (OSError path), set_frame_index i (set_selected [] [] self))
    end.
Proof.
  intros Hi.
  destruct (lookup_lt_is_Some_2 (img_paths self) (Z.to_nat i)) as [path Hp];
    [lia|].
  exists path. split; [exact Hp|].
  unfold set_input_image. run_method.
  destruct (decide _) as [Hn|_]; [lia|].
  rewrite clear_points_run. simpl. rewrite Hp.
  destruct (w_imread w path); reflexivity.
Qed.

Lemma add_point_appends r frame_idx i j self :
  selected_points (exec (add_point r frame_idx i j) self)
    = selected_points self ++ [(j, i)] ∧
  selected_labels (exec (add_point r frame_idx i j) self)
    = selected_labels self ++ [cur_label_val self].
Proof.
  unfold add_point, get_sam_mask. run_method. simpl.
  destruct (inference_state self); [|split; reflexivity].
  destruct r; simpl; [split; reflexivity|].
  destruct (sam_masks _ _ _ _); simpl; split; reflexivity.
Qed.

Lemma add_point_without_inference_state r frame_idx i j self :
  inference_state self = None →
  outcome (add_point r frame_idx i j) self
    = Raise (AttributeError "PromptGUI" "inference_state").
Proof.
  intros Hn. unfold add_point, get_sam_mask. run_method. simpl.
  rewrite Hn. reflexivity.
Qed.

End Session.

(** ** The points and labels stay aligned *)

Lemma handle_event_agree w ev self :
  points_labels_agree self → points_labels_agree (handle_event w ev self).
Proof.
  unfold points_labels_agree. intros Hagree.
  destruct ev as [dir|i|r| | | | |r frame_idx i j| |r|out]; simpl.
  - unfold exec. rewrite set_img_dir_run. simpl.
    destruct (w_listdir w dir); exact Hagree.
  - destruct (decide (0 <= i < Z.of_nat (length (img_paths self)))) as [Hin|Hout].
    + destruct (set_input_image_in_range w self i Hin) as (path & _ & Hrun).
      unfold exec. rewrite Hrun. destruct (w_imread w path); reflexivity.
    + unfold exec. rewrite set_input_image_out_of_range by lia. exact Hagree.
  - destruct r; exact Hagree.
  - destruct (reset_clears self) as (_ & _ & _ & _ & _ & _ & _ & Hp & Hl).
    rewrite Hp, Hl. exact Hagree.
  - reflexivity.
  - exact Hagree.
  - exact Hagree.
  - destruct (add_point_appends r frame_idx i j self) as [Hp Hl].
    rewrite Hp, Hl, !length_app. simpl. lia.
  - reflexivity.
  - unfold run_tracker. run_method. simpl.
    destruct (inference_state self); [|exact Hagree].
    destruct (track_frames _ _); [|exact Hagree].
    destruct (pr_error r); exact Hagree.
  - exact Hagree.
Qed.

Lemma run_events_agree w evs self :
  points_labels_agree self → points_labels_agree (run_events w evs self).
Proof.
  revert self. induction evs as [|ev evs IH]; intros self Hagree; simpl.
  - exact Hagree.
  - apply IH, handle_event_agree, Hagree.
Qed.

(** C9. In every state reached from a fresh [PromptGUI] by any sequence of
    GUI operations (add_point, clear_points, add_new_mask, set_input_image,
    set_img_dir, reset, and the remaining controls), whether the operations
    return or raise, the number of accumulated points equals the number of
    accumulated labels. *)
Theorem points_labels_invariant (w : world) (evs : list event) :
  length (selected_points (run_events w evs new_PromptGUI))
  = length (selected_labels (run_events w evs new_PromptGUI)).
Proof. apply (run_events_agree w evs new_PromptGUI). reflexivity. Qed.

(** ** Reset right after loading a directory *)

(** C2 (the code at the claim's scenario). On a fresh object, loading a
    frame directory succeeds and returns the number of image entries; the
    reset that follows clears the session state but does not succeed: it
    raises AttributeError, because [inference_state] is only assigned by
    [get_sam_features]. *)
Theorem reset_after_set_img_dir_raises (w : world) (dir : string)
    (entries : list string) :
  w_listdir w dir = Some entries →
  let loaded := exec (set_img_dir w dir) new_PromptGUI in
  outcome (set_img_dir w dir) new_PromptGUI
    = Ok (length (filter isimage (sorted entries))) ∧
  outcome reset loaded = Raise (AttributeError "PromptGUI" "inference_state") ∧
  empty_session (exec reset loaded).
Proof.
  intros Hls. unfold exec, outcome. rewrite set_img_dir_run, Hls. simpl.
  split; [by rewrite length_fmap|].
  split; [reflexivity|].
  repeat split; reflexivity.
Qed.

Lemma reset_after_set_img_dir_raises_witness :
  outcome (set_img_dir demo_world "root/images/seq") new_PromptGUI = Ok 3%nat ∧
  outcome reset (exec (set_img_dir demo_world "root/images/seq") new_PromptGUI)
    = Raise (AttributeError "PromptGUI" "inference_state") ∧
  empty_session
    (exec reset (exec (set_img_dir demo_world "root/images/seq") new_PromptGUI)).
Proof.
  exact (reset_after_set_img_dir_raises demo_world "root/images/seq"
           ["00002.png"; "notes.txt"; "00001.png"; "00003.JPG"] eq_refl).
Defined.

(** Once [get_sam_features] has returned, reset succeeds. *)
Lemma reset_with_inference_state self h :
  inference_state self = Some h → outcome reset self = Ok ().
Proof. intros Hh. rewrite reset_outcome, Hh. reflexivity. Qed.

(** ** Selecting a frame *)

(** C3 (as stated, refuted). With three frames loaded, frame 1 selected and
    one point pending, selecting index 7 neither moves to the clamped frame
    2 nor clears the point: the call returns the current image and leaves
    the object as it was. *)
Lemma set_input_image_does_not_clamp :
  let self' := exec (set_input_image demo_world 7) demo_session in
  length (img_paths demo_session) = 3%nat ∧
  frame_index self' = 1 ∧
  frame_index self' ≠ spec_clamp 7 3 ∧
  selected_points self' = [(0, 0)] ∧
  selected_points self' ≠ [].
Proof. vm_compute. repeat split; discriminate. Qed.

(** C3 (amended). For every frame sequence of length k and every index i,
    [set_input_image] never fails on account of the index: an index outside
    [[0, k-1]] is ignored (the current image is returned, the frame index and
    the pending points and labels are untouched); an index inside the range
    becomes the frame index and the pending points and labels are cleared,
    the call returning the image read from the i-th path (or raising the
    reader's error). *)
Theorem set_input_image_guarded (w : world) (self : PromptGUI) (i : Z) :
  let k := Z.of_nat (length (img_paths self)) in
  (i < 0 ∨ i >= k → set_input_image w i self = (Ok (image self), self)) ∧
  (0 <= i < k →
   let self' := exec (set_input_image w i) self in
   frame_index self' = i ∧ selected_points self' = [] ∧
   selected_labels self' = [] ∧
   ∃ path, img_paths self !! Z.to_nat i = Some path ∧
     outcome (set_input_image w i) self =
     match w_imread w path with
     | Some img => Ok (Some img)
     | None => Raise (OSError path)
     end).
Proof.
  simpl. split.
  - apply set_input_image_out_of_range.
  - intros Hin.
    destruct (set_input_image_in_range w self i Hin) as (path & Hp & Hrun).
    unfold exec, outcome. rewrite Hrun.
    destruct (w_imread w path) eqn:Hread; simpl; repeat split;
      try reflexivity; exists path; rewrite Hread;
      (split; [exact Hp | reflexivity]).
Qed.

Lemma set_input_image_guarded_witness :
  set_input_image demo_world 7 demo_session
    = (Ok (image demo_session), demo_session) ∧
  frame_index (exec (set_input_image demo_world 2) demo_session) = 2 ∧
  selected_points (exec (set_input_image demo_world 2) demo_session) = [].
Proof.
  split.
  - apply (proj1 (set_input_image_guarded demo_world demo_session 7)).
    right. vm_compute. discriminate.
  - assert (Hin : 0 <= 2 < Z.of_nat (length (img_paths demo_session)))
      by (vm_compute; split; [discriminate | reflexivity]).
    destruct (proj2 (set_input_image_guarded demo_world demo_session 2) Hin)
      as (Hf & Hp & _).
    split; [exact Hf | exact Hp].
Defined.

(** ** Adding a point without a predictor session *)

(** A session in which [get_sam_features] was never triggered has no
    [inference_state], whatever else was done, loading directories
    included. *)
Lemma handle_event_keeps_no_inference_state w ev self :
  (∀ r, ev ≠ EvGetSamFeatures r) →
  inference_state self = None →
  inference_state (handle_event w ev self) = None.
Proof.
  intros Hev Hn.
  destruct ev as [dir|i|r| | | | |r frame_idx i j| |r|out]; simpl.
  - unfold exec. rewrite set_img_dir_run. simpl.
    destruct (w_listdir w dir); exact Hn.
  - destruct (decide (0 <= i < Z.of_nat (length (img_paths self)))) as [Hin|Hout].
    + destruct (set_input_image_in_range w self i Hin) as (path & _ & Hrun).
      unfold exec. rewrite Hrun. destruct (w_imread w path); exact Hn.
    + unfold exec. rewrite set_input_image_out_of_range by lia. exact Hn.
  - destruct (Hev r eq_refl).
  - unfold reset. run_method. simpl. rewrite Hn. reflexivity.
  - exact Hn.
  - exact Hn.
  - exact Hn.
  - unfold add_point, get_sam_mask. run_method. simpl. rewrite Hn. exact Hn.
  - exact Hn.
  - unfold run_tracker. run_method. rewrite Hn. exact Hn.
  - exact Hn.
Qed.

Lemma no_features_no_inference_state w evs :
  Forall (λ ev, ∀ r, ev ≠ EvGetSamFeatures r) evs →
  inference_state (run_events w evs new_PromptGUI) = None.
Proof.
  assert (Hgen : ∀ self, inference_state self = None →
            Forall (λ ev, ∀ r, ev ≠ EvGetSamFeatures r) evs →
            inference_state (run_events w evs self) = None).
  { induction evs as [|ev evs IH]; intros self Hn Hall; simpl; [exact Hn|].
    inversion Hall; subst.
    apply IH; [apply handle_event_keeps_no_inference_state|]; assumption. }
  apply Hgen. reflexivity.
Qed.

(** C4 (as stated, refuted). On a fresh object, with no directory loaded,
    [add_point] does fail, but the exception is the AttributeError of the
    missing attribute, not an explicit NoActiveSession error. *)
Lemma add_point_fresh_not_NoActiveSession :
  outcome (add_point demo_points_reply 0 0 0) new_PromptGUI
    = Raise (AttributeError "PromptGUI" "inference_state") ∧
  ¬ fails_with_NoActiveSession
      (outcome (add_point demo_points_reply 0 0 0) new_PromptGUI).
Proof.
  split; [reflexivity|].
  intros (e & He & Hc). vm_compute in He. inversion He; subst e.
  vm_compute in Hc. discriminate.
Qed.

(** C4 (amended). In every session without a predictor session (no
    [inference_state]: [get_sam_features] has not returned, as in every
    session where no frame directory has been loaded and the features were
    never requested), [add_point] first records the point and its label and
    then fails with AttributeError on [inference_state]; the failure is not
    an explicit NoActiveSession error. *)
Theorem add_point_without_session (r : points_reply) (frame_idx i j : Z)
    (self : PromptGUI) :
  inference_state self = None →
  outcome (add_point r frame_idx i j) self
    = Raise (AttributeError "PromptGUI" "inference_state") ∧
  ¬ fails_with_NoActiveSession (outcome (add_point r frame_idx i j) self) ∧
  selected_points (exec (add_point r frame_idx i j) self)
    = selected_points self ++ [(j, i)] ∧
  selected_labels (exec (add_point r frame_idx i j) self)
    = selected_labels self ++ [cur_label_val self].
Proof.
  intros Hn.
  pose proof (add_point_without_inference_state r frame_idx i j self Hn) as Hout.
  split; [exact Hout|]. split.
  - rewrite Hout. intros (e & He & Hc). inversion He; subst e.
    vm_compute in Hc. discriminate.
  - apply add_point_appends.
Qed.

Lemma add_point_without_session_witness :
  outcome (add_point demo_points_reply 0 3 4) new_PromptGUI
    = Raise (AttributeError "PromptGUI" "inference_state") ∧
  selected_points (exec (add_point demo_points_reply 0 3 4) new_PromptGUI)
    = [(4, 3)].
Proof.
  destruct (add_point_without_session demo_points_reply 0 3 4 new_PromptGUI
              eq_refl) as (Hout & _ & Hp & _).
  split; [exact Hout | exact Hp].
Defined.

(* ===================================================================== *)
(** * Listing the frames of a directory *)
(* ===================================================================== *)

Lemma StronglySorted_filter {A} (R : relation A) (P : A → Prop)
    `{∀ x, Decision (P x)} (l : list A) :
  StronglySorted R l → StronglySorted R (filter P l).
Proof.
  induction 1 as [|x l Hsorted IH Hall]; [constructor|].
  rewrite filter_cons. destruct (decide (P x)); [|exact IH].
  constructor; [exact IH|].
  apply Forall_forall. intros y Hy. apply list_elem_of_filter in Hy as [_ Hy].
  rewrite Forall_forall in Hall. apply Hall, Hy.
Qed.

Lemma isimage_spec p :
  isimage p ↔ snd (splitext (lower p)) ∈ [".png"; ".jpg"; ".jpeg"].
Proof. unfold isimage. apply bool_decide_spec. Qed.

(** C10. For every directory that can be listed, [set_img_dir] stores as the
    frame sequence the paths [dir/p] of exactly those entries [p] whose
    extension, taken by [splitext] on the lowercased name, is .png, .jpg or
    .jpeg; the entries appear in lexicographically sorted order, every other
    entry is left out without an error, and the call returns the number of
    entries kept. *)
Theorem set_img_dir_lists_images (w : world) (self : PromptGUI) (dir : string)
    (entries : list string) :
  w_listdir w dir = Some entries →
  ∃ names : list string,
    img_paths (exec (set_img_dir w dir) self)
      = (λ p, dir +:+ "/" +:+ p) <$> names ∧
    names ≡ₚ filter isimage entries ∧
    (∀ p, p ∈ names ↔
          p ∈ entries ∧ snd (splitext (lower p)) ∈ [".png"; ".jpg"; ".jpeg"]) ∧
    StronglySorted String.le names ∧
    outcome (set_img_dir w dir) self = Ok (length names).
Proof.
  intros Hls. exists (filter isimage (sorted entries)).
  unfold exec, outcome. rewrite set_img_dir_run, Hls. simpl.
  split; [reflexivity|].
  assert (Hperm : filter isimage (sorted entries) ≡ₚ filter isimage entries).
  { unfold sorted. by rewrite merge_sort_Permutation. }
  split; [exact Hperm|]. split; [|split].
  - intros p. rewrite Hperm, list_elem_of_filter, isimage_spec. tauto.
  - apply StronglySorted_filter. unfold sorted.
    apply StronglySorted_merge_sort; apply _.
  - by rewrite length_fmap.
Qed.

Lemma set_img_dir_lists_images_witness :
  ∃ names : list string,
    img_paths (exec (set_img_dir demo_world "root/images/seq") new_PromptGUI)
      = (λ p, "root/images/seq" +:+ "/" +:+ p) <$> names ∧
    names ≡ₚ filter isimage
               ["00002.png"; "notes.txt"; "00001.png"; "00003.JPG"] ∧
    (∀ p, p ∈ names ↔
          p ∈ ["00002.png"; "notes.txt"; "00001.png"; "00003.JPG"] ∧
          snd (splitext (lower p)) ∈ [".png"; ".jpg"; ".jpeg"]) ∧
    StronglySorted String.le names ∧
    outcome (set_img_dir demo_world "root/images/seq") new_PromptGUI
      = Ok (length names).
Proof.
  exact (set_img_dir_lists_images demo_world new_PromptGUI "root/images/seq"
           ["00002.png"; "notes.txt"; "00001.png"; "00003.JPG"] eq_refl).
Defined.

Example set_img_dir_demo :
  img_paths (exec (set_img_dir demo_world "root/images/seq") new_PromptGUI)
  = ["root/images/seq/00001.png"; "root/images/seq/00002.png";
     "root/images/seq/00003.JPG"].
Proof. reflexivity. Qed.

Example isimage_examples :
  isimage "frame.PNG" = true ∧ isimage "a.b.JpEg" = true ∧
  isimage ".png" = false ∧ isimage "clip.mp4" = false ∧ isimage "png" = false.
Proof. repeat split. Qed.

(* ===================================================================== *)
(** * Exporting the masks *)
(* ===================================================================== *)







Example save_masks_demo :
  save_masks_to_dir demo_tracked "out"
  = (Ok "Saved 3 masks to out!",
     [Makedirs "out";
      Imwrite "out/00001.mask.png" (NdArray [2; 2]%nat [0; 255; 255; 255]);
      Imwrite "out/00002.mask.png" (NdArray [2; 2]%nat [0; 0; 0; 0]);
      Imwrite "out/00003.mask.png" (NdArray [2; 2]%nat [255; 255; 255; 255])]).
Proof. vm_compute. reflexivity. Qed.

(* ===================================================================== *)
(** * The palette *)
(* ===================================================================== *)

Lemma linspace01_length num :
  0 <= num → ∃ l, linspace01 num = Ok l ∧ length l = Z.to_nat num.
Proof.
  intros Hnum. unfold linspace01.
  destruct (num <? 0) eqn:Hneg; [lia|].
  eexists. split; [reflexivity|]. by rewrite length_fmap, length_seq.
Qed.

Lemma slice_1_m1_length {A} (l : list A) :
  length (slice_1_m1 l) = (length l - 2)%nat.
Proof. unfold slice_1_m1. rewrite length_take, length_drop. lia. Qed.

Lemma black_to_uint8 : float_to_uint8 (255 * 0)%float = 0.
Proof. vm_compute. reflexivity. Qed.

(** C7. For every integer n >= 1 (and any lightness and saturation, the
    defaults of [get_hls_palette] included), the palette is returned, has
    exactly n colors, its entry 0 is pure black (0,0,0), and any call with
    the same arguments returns that same palette. *)
Theorem get_hls_palette_black_first (n : Z) (lightness saturation : float) :
  1 <= n →
  ∃ palette,
    get_hls_palette_with n lightness saturation = Ok palette ∧
    Z.of_nat (length palette) = n ∧
    palette !! 0%nat = Some (0, 0, 0) ∧
    ∀ palette', get_hls_palette_with n lightness saturation = Ok palette' →
                palette' = palette.
Proof.
  intros Hn. unfold get_hls_palette_with.
  destruct (linspace01_length (n + 1)) as (hues & Hhues & Hlen); [lia|].
  rewrite Hhues. cbn [mbind result_bind mret result_ret].
  eexists. split; [reflexivity|]. split; [|split].
  - rewrite length_fmap. cbn [length].
    rewrite length_fmap, slice_1_m1_length, Hlen. lia.
  - cbn [fmap list_fmap lookup list_lookup]. by rewrite black_to_uint8.
  - intros palette' Heq. by inversion Heq.
Qed.

Lemma get_hls_palette_black_first_witness :
  ∃ palette,
    get_hls_palette 4 = Ok palette ∧
    Z.of_nat (length palette) = 4 ∧
    palette !! 0%nat = Some (0, 0, 0) ∧
    ∀ palette', get_hls_palette 4 = Ok palette' → palette' = palette.
Proof.
  apply (get_hls_palette_black_first 4 0.5%float (7 / 10)%float).
  vm_compute. discriminate.
Defined.

(** The palettes of the first sizes, as the program computes them. *)
Example get_hls_palette_values :
  get_hls_palette 1 = Ok [(0, 0, 0)] ∧
  get_hls_palette 2 = Ok [(0, 0, 0); (38, 216, 216)] ∧
  get_hls_palette 4
    = Ok [(0, 0, 0); (127, 216, 38); (38, 216, 216); (127, 38, 216)].
Proof. vm_compute. repeat split. Qed.

(* ===================================================================== *)
(** * Compositing *)
(* ===================================================================== *)

Lemma elem_of_all_uint8 v : is_uint8 v → In v all_uint8.
Proof.
  unfold is_uint8, all_uint8. intros Hv.
  apply in_map_iff. exists (Z.to_nat v).
  split; [lia|]. apply in_seq. lia.
Qed.









Example compose_img_mask_default :
  compose_img_mask (NdArray [1; 1; 3]%nat [10; 200; 30])
    (NdArray [1; 1; 3]%nat [38; 216; 0]) 0.5
  = Ok (NdArray [1; 1; 3]%nat [24; 208; 15]).
Proof. vm_compute. reflexivity. Qed.

(* ===================================================================== *)
(** * Propagation: from logits to one mask per frame *)
(* ===================================================================== *)

(** ** One frame *)

Lemma mapM_all_ok {A B} (f : A → result B) (g : A → B) (l : list A) :
  (∀ x, x ∈ l → f x = Ok (g x)) → mapM f l = Ok (g <$> l).
Proof.
  induction l as [|x l IH]; intros Hf; [reflexivity|].
  cbn [mapM]. rewrite (Hf x) by left.
  cbn [mbind result_bind]. rewrite IH by (intros y Hy; apply Hf; by right).
  reflexivity.
Qed.

Lemma wf_frame_inv f :
  wf_frame f →
  ∃ n, shape (fo_mask_logits f) = n :: frame_shape f ∧
       (length (fo_obj_ids f) ≤ n)%nat ∧
       length (data (fo_mask_logits f)) = (n * frame_pixels f)%nat.
Proof.
  unfold wf_frame, frame_pixels, frame_shape.
  destruct (shape (fo_mask_logits f)) as [|n rest]; [done|].
  intros [Hle Hlen]. exists n. auto.
Qed.

Lemma bool_masks_ok f :
  wf_frame f →
  bool_masks f = Ok (object_mask f <$> seq 0 (length (fo_obj_ids f))).
Proof.
  intros (n & Hshape & Hle & _)%wf_frame_inv.
  unfold bool_masks. apply mapM_all_ok. intros i Hi.
  apply elem_of_seq in Hi. unfold getitem. rewrite Hshape.
  destruct (decide (i < n)%nat) as [_|Hge]; [reflexivity | lia].
Qed.

Lemma object_mask_shape f i :
  shape (object_mask f i) = filter (λ d, d ≠ 1%nat) (frame_shape f).
Proof. reflexivity. Qed.

Lemma object_mask_length f i :
  wf_frame f → (i < length (fo_obj_ids f))%nat →
  length (data (object_mask f i)) = frame_pixels f.
Proof.
  intros (n & _ & Hle & Hlen)%wf_frame_inv Hi. simpl.
  rewrite length_fmap, length_take, length_drop, Hlen. nia.
Qed.

Lemma object_mask_lookup f i p :
  (p < frame_pixels f)%nat →
  default false (data (object_mask f i) !! p) = object_covers f i p.
Proof.
  intros Hp. unfold object_covers. simpl.
  rewrite list_lookup_fmap, lookup_take_lt, lookup_drop by exact Hp.
  by destruct (data (fo_mask_logits f) !! _).
Qed.

(** The elementwise OR accumulated by [np.any] along axis 0. *)
Lemma any_fold_length (ms : list (ndarray bool)) (acc : list bool) L :
  length acc = L → Forall (λ a, length (data a) = L) ms →
  length (foldl (λ acc a, zip_with orb acc (data a)) acc ms) = L.
Proof.
  intros Hacc Hms. revert acc Hacc.
  induction Hms as [|a ms Ha _ IH]; intros acc Hacc; simpl; [exact Hacc|].
  apply IH. rewrite length_zip_with. lia.
Qed.

Lemma any_fold_lookup (ms : list (ndarray bool)) (acc : list bool) L p :
  length acc = L → Forall (λ a, length (data a) = L) ms → (p < L)%nat →
  foldl (λ acc a, zip_with orb acc (data a)) acc ms !! p
  = Some (default false (acc !! p)
          || existsb (λ a, default false (data a !! p)) ms).
Proof.
  intros Hacc Hms Hp. revert acc Hacc.
  induction Hms as [|a ms Ha _ IH]; intros acc Hacc; simpl.
  - destruct (lookup_lt_is_Some_2 acc p) as [b Hb]; [lia|].
    rewrite Hb. simpl. by rewrite orb_false_r.
  - rewrite IH by (rewrite length_zip_with; lia).
    rewrite lookup_zip_with.
    destruct (lookup_lt_is_Some_2 acc p) as [b Hb]; [lia|].
    destruct (lookup_lt_is_Some_2 (data a) p) as [b' Hb']; [lia|].
    rewrite Hb, Hb'. simpl. by rewrite orb_assoc.
Qed.

Lemma existsb_fmap {A B} (g : A → B) (h : B → bool) (l : list A) :
  existsb h (g <$> l) = existsb (λ x, h (g x)) l.
Proof. induction l as [|x l IH]; csimpl; [reflexivity | by rewrite IH]. Qed.

Lemma forallb_fmap_true {A B} (g : A → B) (h : B → bool) (l : list A) :
  (∀ x, h (g x) = true) → forallb h (g <$> l) = true.
Proof.
  intros Hh. induction l as [|x l IH]; csimpl; [reflexivity|].
  by rewrite Hh, IH.
Qed.

Lemma existsb_ext_in {A} (h h' : A → bool) (l : list A) :
  (∀ x, x ∈ l → h x = h' x) → existsb h l = existsb h' l.
Proof.
  induction l as [|x l IH]; intros Hh; simpl; [reflexivity|].
  rewrite (Hh x) by left. rewrite IH; [reflexivity|].
  intros y Hy. apply Hh. by right.
Qed.

(** A frame with at least one object: the stored mask is 0 exactly where
    some object's logit is positive and 255 elsewhere. *)
Lemma frame_grayscale_objects f :
  wf_frame f → fo_obj_ids f ≠ [] →
  ∃ g, frame_grayscale f = Ok g ∧ inverted_or_of f g.
Proof.
  intros Hwf Hne. unfold frame_grayscale.
  rewrite (bool_masks_ok f Hwf). cbn [mbind result_bind].
  destruct (length (fo_obj_ids f)) as [|k] eqn:Hk.
  { destruct (fo_obj_ids f); done. }
  cbn [seq]. rewrite fmap_cons. unfold np_any_axis0.
  rewrite forallb_fmap_true
    by (intros i; apply bool_decide_eq_true; reflexivity).
  cbn [mbind result_bind mret result_ret].
  eexists. split; [reflexivity|].
  assert (Hlens : Forall (λ a, length (data a) = frame_pixels f)
                    (object_mask f <$> seq 1 k)).
  { apply Forall_fmap, Forall_forall. intros i Hi. apply elem_of_seq in Hi.
    simpl. apply object_mask_length; [exact Hwf | lia]. }
  assert (Hlen0 : length (data (object_mask f 0)) = frame_pixels f)
    by (apply object_mask_length; [exact Hwf | lia]).
  split; [reflexivity|]. split.
  - cbn [invert_to_uint8_255 data]. rewrite length_fmap.
    by apply any_fold_length.
  - intros p Hp. cbn [invert_to_uint8_255 data].
    rewrite list_lookup_fmap.
    rewrite (any_fold_lookup _ _ (frame_pixels f) p Hlen0 Hlens Hp).
    rewrite existsb_fmap. cbn [fmap option_fmap option_map].
    f_equal. unfold some_object_covers. rewrite Hk. cbn [seq existsb].
    rewrite (object_mask_lookup f 0 p Hp).
    rewrite (existsb_ext_in _ (λ i, object_covers f i p))
      by (intros i _; by apply object_mask_lookup).
    by destruct (object_covers f 0 p || existsb _ _).
Qed.

(** A frame for which the predictor reports no object: [np.any] of the empty
    list is the 0-dimensional [False], and the stored value is the
    0-dimensional 255. *)
Lemma frame_grayscale_no_object f :
  fo_obj_ids f = [] → frame_grayscale f = Ok (NdArray [] [255]).
Proof.
  intros Hids. unfold frame_grayscale, bool_masks. rewrite Hids. reflexivity.
Qed.

Lemma frame_grayscale_wf_ok f : wf_frame f → is_ok (frame_grayscale f) = true.
Proof.
  intros Hwf. destruct (fo_obj_ids f) as [|id ids] eqn:Hids.
  - by rewrite frame_grayscale_no_object.
  - destruct (frame_grayscale_objects f Hwf) as (g & -> & _); [|done].
    by rewrite Hids.
Qed.

(** ** The dict of frames and its keys *)

Lemma last_yield_cons k f frames :
  last_yield k (f :: frames) =
  match last_yield k frames with
  | Some f' => Some f'
  | None => if decide (fo_frame_idx f = k) then Some f else None
  end.
Proof.
  unfold last_yield. rewrite filter_cons.
  destruct (decide (fo_frame_idx f = k)).
  - rewrite last_cons. reflexivity.
  - by destruct (last _).
Qed.

Lemma last_yield_Some k f frames :
  last_yield k frames = Some f → f ∈ frames ∧ fo_frame_idx f = k.
Proof.
  unfold last_yield. intros Hlast.
  apply last_Some_elem_of, list_elem_of_filter in Hlast. tauto.
Qed.

Lemma last_yield_is_Some k frames :
  is_Some (last_yield k frames) ↔ k ∈ fo_frame_idx <$> frames.
Proof.
  unfold last_yield. rewrite last_is_Some, list_elem_of_fmap. split.
  - intros Hne. destruct (filter _ frames) as [|f fs] eqn:Hf; [done|].
    assert (Hin : f ∈ filter (λ f, fo_frame_idx f = k) frames)
      by (rewrite Hf; left).
    apply list_elem_of_filter in Hin as [Hk Hin]. by exists f.
  - intros (f & -> & Hin) Hnil.
    assert (Hf : f ∈ filter (λ f', fo_frame_idx f' = fo_frame_idx f) frames)
      by (by apply list_elem_of_filter).
    rewrite Hnil in Hf. by apply not_elem_of_nil in Hf.
Qed.

(** After the loop, the dict holds for each frame index the mask of the
    last item yielded for it. *)
Lemma track_frames_lookup frames m0 m k :
  track_frames frames m0 = Ok m →
  m !! k =
  match last_yield k frames with
  | Some f =>
      match frame_grayscale f with
      | Ok g => Some g
      | Raise _ => None
      end
  | None => m0 !! k
  end.
Proof.
  revert m0. induction frames as [|f frames IH]; intros m0 Hrun.
  - simpl in Hrun. by inversion Hrun.
  - cbn [track_frames] in Hrun.
    destruct (frame_grayscale f) as [g|e] eqn:Hg; [|discriminate].
    cbn [mbind result_bind] in Hrun.
    rewrite (IH _ Hrun), last_yield_cons.
    destruct (last_yield k frames); [reflexivity|].
    destruct (decide (fo_frame_idx f = k)) as [<-|Hne].
    + by rewrite Hg, lookup_insert_eq.
    + by rewrite lookup_insert_ne.
Qed.

Lemma track_frames_ok frames m0 :
  Forall (λ f, is_ok (frame_grayscale f) = true) frames →
  ∃ m, track_frames frames m0 = Ok m.
Proof.
  intros Hall. revert m0.
  induction Hall as [|f frames Hf _ IH]; intros m0; simpl; [by eexists|].
  destruct (frame_grayscale f); [|discriminate]. apply IH.
Qed.

Lemma StronglySorted_le_lt (l : list Z) :
  StronglySorted Z.le l → NoDup l → StronglySorted Z.lt l.
Proof.
  induction 1 as [|x l _ IH Hall]; intros Hnd; [constructor|].
  apply NoDup_cons in Hnd as [Hx Hnd]. constructor; [by apply IH|].
  rewrite Forall_forall in Hall. apply Forall_forall. intros y Hy.
  specialize (Hall y Hy). assert (x ≠ y) by (by intros ->). lia.
Qed.

Lemma sorted_keys_sorted (m : gmap Z (ndarray Z)) :
  StronglySorted Z.lt (sorted_keys m).
Proof.
  unfold sorted_keys. apply StronglySorted_le_lt.
  - apply StronglySorted_merge_sort; apply _.
  - rewrite merge_sort_Permutation. apply NoDup_fst_map_to_list.
Qed.

Lemma elem_of_sorted_keys (m : gmap Z (ndarray Z)) k :
  k ∈ sorted_keys m ↔ is_Some (m !! k).
Proof.
  unfold sorted_keys. rewrite merge_sort_Permutation, list_elem_of_fmap.
  split.
  - intros ([k' g] & -> & Hin). apply elem_of_map_to_list in Hin. by exists g.
  - intros [g Hg]. exists (k, g). split; [reflexivity|].
    by apply elem_of_map_to_list.
Qed.

Lemma omap_lookup_present (m : gmap Z (ndarray Z)) (ks : list Z) :
  (∀ k, k ∈ ks → is_Some (m !! k)) →
  Forall2 (λ k g, m !! k = Some g) ks (omap (λ i, m !! i) ks).
Proof.
  induction ks as [|k ks IH]; intros Hks; [constructor|].
  destruct (Hks k) as [g Hg]; [left|].
  cbn [omap list_omap]. rewrite Hg. constructor; [exact Hg|].
  apply IH. intros k' Hk'. apply Hks. by right.
Qed.

Lemma masks_in_order_lookup (m : gmap Z (ndarray Z)) :
  Forall2 (λ k g, m !! k = Some g) (sorted_keys m) (masks_in_order m).
Proof.
  unfold masks_in_order. apply omap_lookup_present.
  intros k. apply elem_of_sorted_keys.
Qed.

(** ** The whole run *)

Lemma run_tracker_run self h r m :
  inference_state self = Some h → pr_error r = None →
  track_frames (pr_frames r) ∅ = Ok m →
  is_ok (outcome (run_tracker r) self) = true ∧
  color_masks_all (exec (run_tracker r) self) = masks_in_order m.
Proof.
  intros Hh Herr Hm. unfold run_tracker. run_method.
  rewrite Hh, Hm, Herr. simpl. split; reflexivity.
Qed.

(** C1 (as stated, refuted). On three 2x2 frames with one object each, the
    stored masks are the complement of the OR-collapse: where the object is
    present the stored value is 0, not 255, and where no object is present
    it is 255, not 0. *)
Lemma run_tracker_not_plain_or :
  color_masks_all demo_tracked
    = [NdArray [2; 2]%nat [0; 255; 255; 255];
       NdArray [2; 2]%nat [0; 0; 0; 0];
       NdArray [2; 2]%nat [255; 255; 255; 255]] ∧
  spec_or_mask <$> pr_frames demo_propagation
    = [NdArray [2; 2]%nat [255; 0; 0; 0];
       NdArray [2; 2]%nat [255; 255; 255; 255];
       NdArray [2; 2]%nat [0; 0; 0; 0]] ∧
  color_masks_all demo_tracked ≠ spec_or_mask <$> pr_frames demo_propagation.
Proof. vm_compute. repeat split; discriminate. Qed.

(** The stored list, key by key: the keys are the distinct frame indices in
    increasing order, and each entry is the mask computed for the last item
    yielded for its key. *)
Lemma run_tracker_masks_by_frame (self : PromptGUI) (h : handle)
    (r : propagate_reply) :
  inference_state self = Some h →
  pr_error r = None →
  Forall (λ f, is_ok (frame_grayscale f) = true) (pr_frames r) →
  is_ok (outcome (run_tracker r) self) = true ∧
  ∃ ks : list Z,
    StronglySorted Z.lt ks ∧
    (∀ k, k ∈ ks ↔ k ∈ fo_frame_idx <$> pr_frames r) ∧
    Forall2
      (λ k g, ∃ f, last_yield k (pr_frames r) = Some f ∧
                   frame_grayscale f = Ok g)
      ks (color_masks_all (exec (run_tracker r) self)).
Proof.
  intros Hh Herr Hok.
  destruct (track_frames_ok _ ∅ Hok) as [m Hm].
  destruct (run_tracker_run self h r m Hh Herr Hm) as [Hret Hstored].
  split; [exact Hret|]. rewrite Hstored.
  exists (sorted_keys m). split; [apply sorted_keys_sorted|]. split.
  - intros k. rewrite elem_of_sorted_keys, <- last_yield_is_Some.
    rewrite (track_frames_lookup _ _ _ k Hm). split.
    + intros [g Hg]. destruct (last_yield k (pr_frames r)); [done|].
      by rewrite lookup_empty in Hg.
    + intros [f Hf]. rewrite Hf.
      apply last_yield_Some in Hf as [Hin _].
      rewrite Forall_forall in Hok. specialize (Hok f Hin).
      destruct (frame_grayscale f); [done | discriminate].
  - eapply Forall2_impl; [apply masks_in_order_lookup|].
    intros k g Hg. simpl in Hg.
    rewrite (track_frames_lookup _ _ _ k Hm) in Hg.
    destruct (last_yield k (pr_frames r)) as [f|];
      [|by rewrite lookup_empty in Hg].
    exists f. split; [reflexivity|].
    destruct (frame_grayscale f); by inversion Hg.
Qed.

(** C1 (amended). For every run of [run_tracker] on a session with a
    predictor state, in which the generator finishes and every yielded item
    is well formed: the call returns; the stored list has one mask per
    distinct frame index, in increasing frame-index order; and the mask
    stored for a frame that has at least one object is the complement of the
    logical OR of that frame's per-object boolean masks, converted to 0/255:
    a pixel is 0 exactly when at least one object's mask is true there, and
    255 otherwise. *)
Theorem run_tracker_stores_inverted_or (self : PromptGUI) (h : handle)
    (r : propagate_reply) :
  inference_state self = Some h →
  pr_error r = None →
  Forall wf_frame (pr_frames r) →
  is_ok (outcome (run_tracker r) self) = true ∧
  ∃ ks : list Z,
    StronglySorted Z.lt ks ∧
    (∀ k, k ∈ ks ↔ k ∈ fo_frame_idx <$> pr_frames r) ∧
    Forall2
      (λ k g, ∃ f, last_yield k (pr_frames r) = Some f ∧
                   frame_grayscale f = Ok g ∧
                   (fo_obj_ids f ≠ [] → inverted_or_of f g))
      ks (color_masks_all (exec (run_tracker r) self)).
Proof.
  intros Hh Herr Hwf.
  assert (Hok : Forall (λ f, is_ok (frame_grayscale f) = true) (pr_frames r)).
  { eapply Forall_impl; [exact Hwf|]. apply frame_grayscale_wf_ok. }
  destruct (run_tracker_masks_by_frame self h r Hh Herr Hok)
    as (Hret & ks & Hsorted & Hkeys & Hstored).
  split; [exact Hret|]. exists ks. split; [exact Hsorted|].
  split; [exact Hkeys|].
  eapply Forall2_impl; [exact Hstored|].
  intros k g (f & Hlast & Hgray). exists f.
  split; [exact Hlast|]. split; [exact Hgray|].
  intros Hne. apply last_yield_Some in Hlast as [Hin _].
  rewrite Forall_forall in Hwf.
  destruct (frame_grayscale_objects f (Hwf f Hin) Hne) as (g' & Hg' & Hinv).
  rewrite Hgray in Hg'. by inversion Hg'; subst.
Qed.

Lemma run_tracker_stores_inverted_or_witness :
  is_ok (outcome (run_tracker demo_propagation) demo_session) = true ∧
  ∃ ks : list Z,
    StronglySorted Z.lt ks ∧
    (∀ k, k ∈ ks ↔ k ∈ fo_frame_idx <$> pr_frames demo_propagation) ∧
    Forall2
      (λ k g, ∃ f, last_yield k (pr_frames demo_propagation) = Some f ∧
                   frame_grayscale f = Ok g ∧
                   (fo_obj_ids f ≠ [] → inverted_or_of f g))
      ks (color_masks_all (exec (run_tracker demo_propagation) demo_session)).
Proof.
  apply (run_tracker_stores_inverted_or demo_session
           (Handle "root/images/seq" [Prompt 1 0 [(0, 0)] [1%float]])
           demo_propagation).
  - vm_compute. reflexivity.
  - reflexivity.
  - repeat constructor.
Defined.

(** ** One entry per frame *)

Lemma NoDup_fmap_elem_inj {A B} (g : A → B) (l : list A) x y :
  NoDup (g <$> l) → x ∈ l → y ∈ l → g x = g y → x = y.
Proof.
  induction l as [|a l IH]; intros Hnd Hx Hy Hg; [by apply not_elem_of_nil in Hx|].
  rewrite fmap_cons in Hnd. apply NoDup_cons in Hnd as [Ha Hnd].
  apply elem_of_cons in Hx as [->|Hx]; apply elem_of_cons in Hy as [->|Hy].
  - reflexivity.
  - destruct Ha. rewrite Hg. by apply list_elem_of_fmap_2.
  - destruct Ha. rewrite <- Hg. by apply list_elem_of_fmap_2.
  - by apply IH.
Qed.

Lemma StronglySorted_lt_NoDup (l : list Z) : StronglySorted Z.lt l → NoDup l.
Proof.
  induction 1 as [|x l _ IH Hall]; constructor; [|exact IH].
  intros Hx. rewrite Forall_forall in Hall. specialize (Hall x Hx). lia.
Qed.

(** When the predictor yields the frames in increasing frame-index order,
    as its contract says, the stored list has exactly one entry per yielded
    item, in that order, each the mask computed for that item. *)
Lemma run_tracker_one_entry_per_frame self h r :
  inference_state self = Some h →
  pr_error r = None →
  Forall wf_frame (pr_frames r) →
  StronglySorted Z.lt (fo_frame_idx <$> pr_frames r) →
  Forall2 (λ f g, frame_grayscale f = Ok g)
    (pr_frames r) (color_masks_all (exec (run_tracker r) self)).
Proof.
  intros Hh Herr Hwf Hinc.
  assert (Hok : Forall (λ f, is_ok (frame_grayscale f) = true) (pr_frames r)).
  { eapply Forall_impl; [exact Hwf|]. apply frame_grayscale_wf_ok. }
  destruct (run_tracker_masks_by_frame self h r Hh Herr Hok)
    as (_ & ks & Hks & Hel & Hall).
  assert (Hnd : NoDup (fo_frame_idx <$> pr_frames r))
    by (by apply StronglySorted_lt_NoDup).
  assert (Heq : ks = fo_frame_idx <$> pr_frames r).
  { apply (StronglySorted_unique_strong Z.lt);
      [intros; lia | exact Hks | exact Hinc |].
    apply NoDup_Permutation; [by apply StronglySorted_lt_NoDup | exact Hnd |].
    exact Hel. }
  rewrite Heq in Hall. apply Forall2_fmap_l in Hall.
  apply Forall2_same_length_lookup in Hall as [Hlen Hall].
  apply Forall2_same_length_lookup. split; [exact Hlen|].
  intros j f g Hf Hg.
  destruct (Hall j f g Hf Hg) as (f' & Hlast & Hgray).
  apply last_yield_Some in Hlast as [Hin' Hidx].
  assert (Hin : f ∈ pr_frames r) by (eapply list_elem_of_lookup_2, Hf).
  by rewrite <- (NoDup_fmap_elem_inj fo_frame_idx _ f' f Hnd Hin' Hin Hidx).
Qed.

(** A frame with at least one object and a slice shape [(1, H, W)] with
    [H, W >= 2] is stored as a 2-D grid of 0/255 values. *)
Lemma frame_grayscale_2d f g H W :
  wf_frame f → fo_obj_ids f ≠ [] →
  frame_shape f = [1; H; W]%nat → (2 ≤ H)%nat → (2 ≤ W)%nat →
  frame_grayscale f = Ok g →
  shape g = [H; W] ∧ Forall (λ v, v = 0 ∨ v = 255) (data g).
Proof.
  intros Hwf Hne Hshape HH HW Hg.
  destruct (frame_grayscale_objects f Hwf Hne) as (g' & Hg' & Hs & Hlen & Hpix).
  rewrite Hg in Hg'. inversion Hg'; subst g'. split.
  - rewrite Hs, Hshape. rewrite !filter_cons. cbn [filter list_filter].
    repeat (destruct (decide _); try lia). reflexivity.
  - apply Forall_lookup. intros p v Hv.
    assert (Hp : (p < frame_pixels f)%nat)
      by (rewrite <- Hlen; eapply lookup_lt_Some, Hv).
    rewrite (Hpix p Hp) in Hv. inversion Hv.
    destruct (some_object_covers f p); auto.
Qed.


(* ===================================================================== *)
(** * Further properties of the session object *)
(* ===================================================================== *)

(** ** What a handler leaves alone *)

(** The effect of every handler on the object, field by field, in the form
    the invariants below need: an event either leaves the object alone or
    changes it in one of a few ways. *)
Lemma run_tracker_cases r self :
  run_tracker r self = (outcome (run_tracker r) self, exec (run_tracker r) self) ∧
  ((∃ e, outcome (run_tracker r) self = Raise e ∧ exec (run_tracker r) self = self) ∨
   (∃ msg ms, outcome (run_tracker r) self = Ok msg ∧
              exec (run_tracker r) self = set_color_masks_all ms self)).
Proof.
  split; [unfold outcome, exec; by destruct (run_tracker r self)|].
  unfold run_tracker. run_method.
  destruct (inference_state self); [|left; eauto].
  destruct (track_frames _ _); simpl; [|left; eauto].
  destruct (pr_error r); simpl; [left; eauto | right; eauto].
Qed.

(** X1. [run_tracker] is all or nothing: when it raises (no predictor
    session, a malformed item, or an exception of the generator after any
    number of frames) the object is exactly as before, previously stored
    masks included; when it returns, only [color_masks_all] has changed. *)
Theorem run_tracker_all_or_nothing (r : propagate_reply) (self : PromptGUI) :
  match outcome (run_tracker r) self with
  | Raise _ => exec (run_tracker r) self = self
  | Ok _ => ∃ ms, exec (run_tracker r) self = set_color_masks_all ms self
  end.
Proof.
  destruct (run_tracker_cases r self) as [_ [(e & -> & Hs)|(msg & ms & -> & Hs)]];
    eauto.
Qed.

(** ** Invariants of every reachable state *)

Lemma add_point_state r frame_idx i j self :
  ∃ st, exec (add_point r frame_idx i j) self
        = set_inference_state st
            (set_selected (selected_points self ++ [(j, i)])
               (selected_labels self ++ [cur_label_val self]) self).
Proof.
  unfold add_point, get_sam_mask. run_method. simpl.
  destruct (inference_state self) eqn:Hst.
  - destruct r; simpl.
    + eexists (Some _). unfold set_inference_state, set_selected. simpl.
      rewrite Hst. reflexivity.
    + destruct (sam_masks _ _ _ _); simpl; by eexists.
  - exists None. unfold set_inference_state, set_selected. simpl.
    by rewrite Hst.
Qed.

Lemma handle_event_labels_binary w ev self :
  labels_binary self → labels_binary (handle_event w ev self).
Proof.
  unfold labels_binary. intros [Hcur Hall].
  destruct ev as [dir|i|r| | | | |r frame_idx i j| |r|out]; simpl.
  - unfold exec. rewrite set_img_dir_run. simpl.
    by destruct (w_listdir w dir).
  - destruct (decide (0 <= i < Z.of_nat (length (img_paths self)))) as [Hin|Hout].
    + destruct (set_input_image_in_range w self i Hin) as (path & _ & Hrun).
      unfold exec. rewrite Hrun. by destruct (w_imread w path).
    + unfold exec. by rewrite set_input_image_out_of_range by lia.
  - by destruct r.
  - destruct (reset_clears self) as (_ & _ & _ & _ & _ & _ & _ & _ & Hl).
    rewrite Hl. split; [|done].
    unfold reset. run_method. simpl. by destruct (inference_state self).
  - done.
  - split; [by left | done].
  - split; [by right | done].
  - destruct (add_point_state r frame_idx i j self) as [st ->]. simpl.
    split; [done|]. apply Forall_app. split; [done|]. by constructor.
  - done.
  - destruct (run_tracker_cases r self) as [_ [(e & _ & ->)|(msg & ms & _ & ->)]];
      done.
  - done.
Qed.

(** X2. In every reachable state the polarity in force and every label
    recorded with a point are 1.0 or 0.0: the toggles are the only writers
    of the polarity and [add_point] records the polarity in force. *)
Theorem labels_always_binary (w : world) (evs : list event) :
  labels_binary (run_events w evs new_PromptGUI).
Proof.
  assert (Hgen : ∀ self, labels_binary self → labels_binary (run_events w evs self)).
  { induction evs as [|ev evs IH]; intros self Hs; simpl; [done|].
    by apply IH, handle_event_labels_binary. }
  apply Hgen. split; [by left | constructor].
Qed.

Lemma handle_event_frame_index_valid w ev self :
  frame_index_valid self → frame_index_valid (handle_event w ev self).
Proof.
  unfold frame_index_valid. intros Hvalid.
  destruct ev as [dir|i|r| | | | |r frame_idx i j| |r|out]; simpl.
  - unfold exec. rewrite set_img_dir_run. simpl.
    destruct (w_listdir w dir); by left.
  - destruct (decide (0 <= i < Z.of_nat (length (img_paths self)))) as [Hin|Hout].
    + destruct (set_input_image_in_range w self i Hin) as (path & _ & Hrun).
      unfold exec. rewrite Hrun. destruct (w_imread w path); by right.
    + unfold exec. by rewrite set_input_image_out_of_range by lia.
  - by destruct r.
  - left. apply (reset_clears self).
  - done.
  - done.
  - done.
  - by destruct (add_point_state r frame_idx i j self) as [st ->].
  - done.
  - destruct (run_tracker_cases r self) as [_ [(e & _ & ->)|(msg & ms & _ & ->)]];
      done.
  - done.
Qed.

(** X3. In every reachable state the frame index is 0 or the index of a
    path of the loaded sequence: an out-of-range selection is ignored, and
    loading a directory or resetting puts the index back to 0. *)
Theorem frame_index_always_valid (w : world) (evs : list event) :
  frame_index_valid (run_events w evs new_PromptGUI).
Proof.
  assert (Hgen : ∀ self, frame_index_valid self →
                         frame_index_valid (run_events w evs self)).
  { induction evs as [|ev evs IH]; intros self Hs; simpl; [done|].
    by apply IH, handle_event_frame_index_valid. }
  apply Hgen. by left.
Qed.

Lemma handle_event_cur_mask_idx w ev self :
  cur_mask_idx (handle_event w ev self) =
  match ev with
  | EvSetImgDir _ | EvReset => 0
  | EvAddNewMask => cur_mask_idx self + 1
  | _ => cur_mask_idx self
  end.
Proof.
  destruct ev as [dir|i|r| | | | |r frame_idx i j| |r|out]; simpl.
  - unfold exec. rewrite set_img_dir_run. simpl.
    by destruct (w_listdir w dir).
  - destruct (decide (0 <= i < Z.of_nat (length (img_paths self)))) as [Hin|Hout].
    + destruct (set_input_image_in_range w self i Hin) as (path & _ & Hrun).
      unfold exec. rewrite Hrun. by destruct (w_imread w path).
    + unfold exec. by rewrite set_input_image_out_of_range by lia.
  - by destruct r.
  - apply (reset_clears self).
  - done.
  - done.
  - done.
  - by destruct (add_point_state r frame_idx i j self) as [st ->].
  - done.
  - destruct (run_tracker_cases r self) as [_ [(e & _ & ->)|(msg & ms & _ & ->)]];
      done.
  - done.
Qed.

(** X4. In every reachable state the object id in use equals the number of
    "Add new mask" clicks since the last directory load or reset (whether
    those returned or raised); in particular ids start at 0 and are never
    negative. *)
Theorem cur_mask_idx_counts_new_masks (w : world) (evs : list event) :
  cur_mask_idx (run_events w evs new_PromptGUI) = masks_started evs ∧
  0 <= cur_mask_idx (run_events w evs new_PromptGUI).
Proof.
  assert (Hgen : ∀ self n, cur_mask_idx self = n → 0 <= n →
    let step := λ n ev, match ev with
                        | EvSetImgDir _ | EvReset => 0
                        | EvAddNewMask => n + 1
                        | _ => n
                        end in
    cur_mask_idx (run_events w evs self) = foldl step n evs ∧
    0 <= foldl step n evs).
  { induction evs as [|ev evs IH]; intros self n Hn Hpos; simpl; [by subst|].
    apply IH.
    - rewrite handle_event_cur_mask_idx, Hn. by destruct ev.
    - destruct ev; lia. }
  destruct (Hgen new_PromptGUI 0 eq_refl (Z.le_refl 0)) as [Heq Hpos].
  unfold masks_started. by rewrite Heq.
Qed.

Lemma handle_event_unused_state w ev self :
  unused_state_empty self → unused_state_empty (handle_event w ev self).
Proof.
  unfold unused_state_empty. intros Hempty.
  destruct ev as [dir|i|r| | | | |r frame_idx i j| |r|out]; simpl.
  - unfold exec. rewrite set_img_dir_run. simpl.
    by destruct (w_listdir w dir).
  - destruct (decide (0 <= i < Z.of_nat (length (img_paths self)))) as [Hin|Hout].
    + destruct (set_input_image_in_range w self i Hin) as (path & _ & Hrun).
      unfold exec. rewrite Hrun. by destruct (w_imread w path).
    + unfold exec. by rewrite set_input_image_out_of_range by lia.
  - by destruct r.
  - destruct (reset_clears self) as (_ & _ & _ & H1 & H2 & H3 & _). done.
  - done.
  - done.
  - done.
  - by destruct (add_point_state r frame_idx i j self) as [st ->].
  - done.
  - destruct (run_tracker_cases r self) as [_ [(e & _ & ->)|(msg & ms & _ & ->)]];
      done.
  - done.
Qed.

(** X5. The per-object stores [cur_masks] and [cur_logits] and the list
    [index_masks_all] are empty in every reachable state: the masks that
    [add_point] obtains are returned to the caller and never kept, and
    propagation only fills [color_masks_all]. *)
Theorem per_object_stores_never_filled (w : world) (evs : list event) :
  unused_state_empty (run_events w evs new_PromptGUI).
Proof.
  assert (Hgen : ∀ self, unused_state_empty self →
                         unused_state_empty (run_events w evs self)).
  { induction evs as [|ev evs IH]; intros self Hs; simpl; [done|].
    by apply IH, handle_event_unused_state. }
  by apply Hgen.
Qed.

(* ===================================================================== *)
(** * The index mask returned by [add_point] *)
(* ===================================================================== *)

Lemma dict_set_fresh {V} (k : Z) (v : V) (d : list (Z * V)) :
  k ∉ d.*1 → dict_set k v d = d ++ [(k, v)].
Proof.
  induction d as [|[k' v'] d IH]; intros Hk; simpl; [reflexivity|].
  rewrite fmap_cons in Hk. apply not_elem_of_cons in Hk as [Hne Hk].
  destruct (decide (k' = k)) as [->|_]; [done|]. by rewrite IH.
Qed.

(** With distinct ids the dict comprehension of [get_sam_mask] lists the
    objects in the order of the ids. *)
Lemma sam_masks_distinct f i ids acc :
  wf_frame f →
  (i + length ids ≤ length (fo_obj_ids f))%nat →
  NoDup ids → (∀ k, k ∈ ids → k ∉ acc.*1) →
  sam_masks i ids (fo_mask_logits f) acc
  = Ok (acc ++ zip ids (object_mask f <$> seq i (length ids))).
Proof.
  intros (n & Hshape & Hle & _)%wf_frame_inv.
  revert i acc. induction ids as [|id ids IH]; intros i acc Hi Hnd Hfresh.
  - simpl. by rewrite app_nil_r.
  - apply NoDup_cons in Hnd as [Hid Hnd]. simpl in Hi.
    cbn [sam_masks]. unfold getitem. rewrite Hshape.
    destruct (decide (i < n)%nat) as [_|Hge]; [|lia].
    cbn [mbind result_bind].
    rewrite dict_set_fresh by (apply Hfresh; left).
    rewrite IH; [|lia|exact Hnd|].
    + rewrite <- app_assoc. reflexivity.
    + intros k Hk. rewrite fmap_app, elem_of_app. intros [Hin|Hin].
      * by apply (Hfresh k); [right|].
      * simpl in Hin. apply list_elem_of_singleton in Hin. by subst.
Qed.

(** The loop of [make_index_mask], pixel by pixel. *)
Lemma index_fold_lookup (l : list (Z * ndarray bool)) (a0 : ndarray Z) L :
  Forall (λ km, shape km.2 = shape a0 ∧ length (data km.2) = L) l →
  length (data a0) = L →
  ∃ g,
    foldl (λ acc '(i, mask), idx_mask ← acc; assign_where idx_mask mask (i + 1))
      (Ok a0) l = Ok g ∧
    shape g = shape a0 ∧ length (data g) = L ∧
    ∀ p v0, data a0 !! p = Some v0 →
      data g !! p
      = Some (foldl (λ v km, if default false (data km.2 !! p)
                             then (km.1 + 1) `mod` 256 else v) v0 l).
Proof.
  intros Hall. revert a0 Hall.
  induction l as [|[k m] l IH]; intros a0 Hall Hlen.
  - exists a0. by simpl.
  - apply Forall_cons in Hall as [[Hs Hm] Hall]. simpl in Hs, Hm.
    cbn [foldl mbind result_bind]. unfold assign_where.
    destruct (decide (shape m = shape a0)) as [_|Hne]; [|done].
    edestruct (IH (NdArray (shape a0)
                     (zip_with (λ old (b : bool), if b then (k + 1) `mod` 256 else old)
                        (data a0) (data m))))
      as (g & Hg & Hsg & Hlg & Hpg).
    + exact Hall.
    + simpl. rewrite length_zip_with. lia.
    + exists g. split; [exact Hg|]. split; [exact Hsg|]. split; [exact Hlg|].
      intros p v0 Hv0.
      assert (Hp : (p < L)%nat) by (rewrite <- Hlen; eapply lookup_lt_Some, Hv0).
      destruct (lookup_lt_is_Some_2 (data m) p) as [b Hb]; [lia|].
      rewrite (Hpg p (if b then (k + 1) `mod` 256 else v0)).
      * simpl. by rewrite Hb.
      * simpl. rewrite lookup_zip_with, Hv0, Hb. reflexivity.
Qed.

Lemma index_fold_objects f p (ids : list Z) i v :
  (p < frame_pixels f)%nat → ids_fit_uint8 ids →
  foldl (λ v km, if default false (data km.2 !! p)
                 then (km.1 + 1) `mod` 256 else v) v
    (zip ids (object_mask f <$> seq i (length ids)))
  = foldl (λ acc '(i, id), if object_covers f i p then id + 1 else acc)
      v (zip (seq i (length ids)) ids).
Proof.
  intros Hp Hfit. revert i v.
  induction Hfit as [|id0 ids Hid Hfit IH]; intros i v; [reflexivity|].
  cbn [length seq]. rewrite fmap_cons. cbn [zip_with foldl fst snd].
  rewrite (object_mask_lookup f i p Hp), (Z.mod_small (id0 + 1) 256) by lia.
  apply IH.
Qed.

(** X6. When the predictor answers [add_point] with at least one object,
    distinct object ids between 0 and 254 and a well-formed logits tensor,
    the call returns the index mask of the frame: it has the squeezed shape
    of one slice, and each pixel holds 0 where no object's logit is positive
    and otherwise the id plus one of the last listed object whose logit is
    positive there.  The predictor has received the whole list of
    accumulated points and labels, the new ones included, under the object
    id in use. *)
Theorem add_point_returns_index_mask (self : PromptGUI) (h : handle)
    (frame_idx i j : Z) (ids : list Z) (logits : ndarray float) :
  let f := FrameOut frame_idx ids logits in
  inference_state self = Some h →
  wf_frame f → ids ≠ [] → NoDup ids → ids_fit_uint8 ids →
  (∃ g,
     outcome (add_point (PointsReturn ids logits) frame_idx i j) self = Ok g ∧
     shape g = filter (λ d, d ≠ 1%nat) (frame_shape f) ∧
     length (data g) = frame_pixels f ∧
     ∀ p, (p < frame_pixels f)%nat → data g !! p = Some (index_pixel f p)) ∧
  inference_state (exec (add_point (PointsReturn ids logits) frame_idx i j) self)
  = Some (Handle (h_video_path h)
            (h_prompts h ++
               [Prompt frame_idx (cur_mask_idx self)
                  (selected_points self ++ [(j, i)])
                  (selected_labels self ++ [cur_label_val self])])).
Proof.
  intros f Hh Hwf Hne Hnd Hfit.
  assert (Hsam : sam_masks 0 ids logits []
                 = Ok (zip ids (object_mask f <$> seq 0 (length ids)))).
  { apply (sam_masks_distinct f 0 ids [] Hwf);
      [simpl; lia | exact Hnd | intros k _; apply not_elem_of_nil]. }
  unfold add_point, get_sam_mask. run_method. simpl. rewrite Hh. simpl.
  rewrite Hsam. simpl. split; [|reflexivity].
  destruct ids as [|id0 ids]; [done|]. cbn [length seq]. rewrite fmap_cons.
  cbn [zip_with].
  assert (Hlen0 : length (data (object_mask f 0)) = frame_pixels f)
    by (apply object_mask_length; [exact Hwf | simpl; lia]).
  assert (Hall : Forall (λ km : Z * ndarray bool,
                   shape km.2 = shape (astype_uint8 (object_mask f 0)) ∧
                   length (data km.2) = frame_pixels f)
                  ((id0, object_mask f 0)
                   :: zip ids (object_mask f <$> seq 1 (length ids)))).
  { constructor; [by split|].
    apply Forall_forall. intros [k m] Hin. apply elem_of_zip_r in Hin.
    apply list_elem_of_fmap in Hin as (n & -> & Hn). apply elem_of_seq in Hn.
    split; [reflexivity|]. apply object_mask_length; [exact Hwf | simpl; lia]. }
  destruct (index_fold_lookup _ (astype_uint8 (object_mask f 0))
              (frame_pixels f) Hall) as (g & Hg & Hsg & Hlg & Hpg).
  { cbn [astype_uint8 data]. rewrite length_fmap. exact Hlen0. }
  unfold make_index_mask. rewrite Hg. simpl.
  exists g. split; [reflexivity|]. split; [exact Hsg|]. split; [exact Hlg|].
  intros p Hp.
  pose proof (object_mask_lookup f 0 p Hp) as Hcov.
  destruct (lookup_lt_is_Some_2 (data (object_mask f 0)) p) as [b Hb]; [lia|].
  rewrite Hb in Hcov. simpl in Hcov. subst b.
  rewrite (Hpg p (Z.b2z (object_covers f 0 p)))
    by (cbn [astype_uint8 data]; by rewrite list_lookup_fmap, Hb).
  f_equal. unfold index_pixel. cbn [fo_obj_ids f length seq zip_with foldl fst snd].
  rewrite Hb. cbn [default from_option]. unfold id.
  apply Forall_cons in Hfit as [Hid0 Hfit].
  rewrite (index_fold_objects f p ids 1 _ Hp Hfit).
  rewrite (Z.mod_small (id0 + 1) 256) by lia.
  by destruct (object_covers f 0 p).
Qed.

Lemma add_point_returns_index_mask_witness :
  let f := FrameOut 1 [3; 5] demo_two_objects in
  (∃ g,
     outcome (add_point (PointsReturn [3; 5] demo_two_objects) 1 0 0)
       demo_session = Ok g ∧
     shape g = filter (λ d, d ≠ 1%nat) (frame_shape f) ∧
     length (data g) = frame_pixels f ∧
     ∀ p, (p < frame_pixels f)%nat → data g !! p = Some (index_pixel f p)) ∧
  inference_state
    (exec (add_point (PointsReturn [3; 5] demo_two_objects) 1 0 0) demo_session)
  = Some (Handle "root/images/seq"
            ([Prompt 1 0 [(0, 0)] [1%float]] ++
               [Prompt 1 (cur_mask_idx demo_session)
                  (selected_points demo_session ++ [(0, 0)])
                  (selected_labels demo_session
                     ++ [cur_label_val demo_session])])).
Proof.
  apply (add_point_returns_index_mask demo_session
           (Handle "root/images/seq" [Prompt 1 0 [(0, 0)] [1%float]])
           1 0 0 [3; 5] demo_two_objects).
  - vm_compute. reflexivity.
  - repeat constructor.
  - discriminate.
  - apply NoDup_cons. split; [|apply NoDup_singleton].
    intros Hin. apply list_elem_of_singleton in Hin. discriminate.
  - repeat constructor; lia.
Defined.

Example add_point_two_objects :
  outcome (add_point (PointsReturn [3; 5] demo_two_objects) 1 0 0) demo_session
  = Ok (NdArray [2; 2]%nat [4; 6; 6; 0]).
Proof. vm_compute. reflexivity. Qed.

Lemma sam_masks_too_many_ids i ids logits acc n rest :
  shape logits = n :: rest → (i ≤ n)%nat → (n < i + length ids)%nat →
  sam_masks i ids logits acc = Raise (IndexError "index out of range").
Proof.
  intros Hshape. revert i acc.
  induction ids as [|id0 ids IH]; intros i acc Hi Hn; simpl in Hn; [lia|].
  cbn [sam_masks]. unfold getitem. rewrite Hshape.
  destruct (decide (i < n)%nat) as [Hlt|Hge]; [|reflexivity].
  cbn [mbind result_bind]. apply IH; lia.
Qed.

(** X7. With a predictor session, a reply that lists no object makes
    [add_point] fail on the assertion of [make_index_mask], and a reply that
    lists more object ids than the logits tensor has slices makes it fail
    with IndexError.  In both cases the click is not undone: the point and
    its label stay recorded. *)
Theorem add_point_malformed_reply (self : PromptGUI) (h : handle)
    (frame_idx i j : Z) (ids : list Z) (logits : ndarray float) :
  inference_state self = Some h →
  (ids = [] →
   outcome (add_point (PointsReturn ids logits) frame_idx i j) self
   = Raise AssertionError) ∧
  (∀ n rest, shape logits = n :: rest → (n < length ids)%nat →
   outcome (add_point (PointsReturn ids logits) frame_idx i j) self
   = Raise (IndexError "index out of range")) ∧
  selected_points (exec (add_point (PointsReturn ids logits) frame_idx i j) self)
  = selected_points self ++ [(j, i)] ∧
  selected_labels (exec (add_point (PointsReturn ids logits) frame_idx i j) self)
  = selected_labels self ++ [cur_label_val self].
Proof.
  intros Hh. split; [|split; [|apply add_point_appends]].
  - intros ->. unfold add_point, get_sam_mask. run_method. simpl.
    rewrite Hh. reflexivity.
  - intros n rest Hshape Hn.
    unfold add_point, get_sam_mask. run_method. simpl. rewrite Hh. simpl.
    rewrite (sam_masks_too_many_ids 0 ids logits [] n rest Hshape) by lia.
    reflexivity.
Qed.

Lemma add_point_malformed_reply_witness :
  outcome (add_point (PointsReturn [] demo_logits) 1 0 0) demo_session
  = Raise AssertionError ∧
  outcome (add_point (PointsReturn [3; 5] demo_logits) 1 0 0) demo_session
  = Raise (IndexError "index out of range") ∧
  selected_points
    (exec (add_point (PointsReturn [3; 5] demo_logits) 1 2 7) demo_session)
  = selected_points demo_session ++ [(7, 2)].
Proof.
  split; [|split].
  - apply (add_point_malformed_reply demo_session
             (Handle "root/images/seq" [Prompt 1 0 [(0, 0)] [1%float]])
             1 0 0 [] demo_logits); reflexivity.
  - apply (proj1 (proj2 (add_point_malformed_reply demo_session
             (Handle "root/images/seq" [Prompt 1 0 [(0, 0)] [1%float]])
             1 0 0 [3; 5] demo_logits eq_refl)) 1%nat [1; 2; 2]%nat).
    + reflexivity.
    + simpl. lia.
  - apply (add_point_malformed_reply demo_session
             (Handle "root/images/seq" [Prompt 1 0 [(0, 0)] [1%float]])
             1 2 7 [3; 5] demo_logits eq_refl).
Defined.

(* ===================================================================== *)
(** * Loading directories and the predictor session *)
(* ===================================================================== *)

(** X8. A directory that cannot be listed makes [set_img_dir] raise, but
    the load is not rolled back: the session has already been cleared and
    [img_dir] already names the new directory, while [img_paths] still holds
    the frames of the previous one. *)
Theorem set_img_dir_unlistable (w : world) (self : PromptGUI) (dir : string) :
  w_listdir w dir = None →
  let self' := exec (set_img_dir w dir) self in
  outcome (set_img_dir w dir) self = Raise (OSError dir) ∧
  img_dir self' = dir ∧ img_paths self' = img_paths self ∧
  color_masks_all self' = [] ∧ cur_mask_idx self' = 0 ∧
  frame_index self' = 0 ∧ image self' = None.
Proof.
  intros Hls. unfold exec, outcome. rewrite set_img_dir_run, Hls. simpl.
  repeat split; reflexivity.
Qed.

Lemma set_img_dir_unlistable_witness :
  let self' := exec (set_img_dir demo_world "root/images/missing") demo_tracked in
  outcome (set_img_dir demo_world "root/images/missing") demo_tracked
    = Raise (OSError "root/images/missing") ∧
  img_dir self' = "root/images/missing" ∧
  img_paths self' = img_paths demo_tracked ∧
  color_masks_all self' = [] ∧ cur_mask_idx self' = 0 ∧
  frame_index self' = 0 ∧ image self' = None.
Proof.
  exact (set_img_dir_unlistable demo_world demo_tracked "root/images/missing"
           eq_refl).
Defined.

(** The predictor session survives every handler; only a successful
    [get_sam_features] rebinds it to another directory. *)
Lemma handle_event_keeps_video_path w ev self h :
  ev ≠ EvGetSamFeatures InitReturn →
  inference_state self = Some h →
  ∃ h', inference_state (handle_event w ev self) = Some h' ∧
        h_video_path h' = h_video_path h.
Proof.
  intros Hev Hh.
  destruct ev as [dir|i|r| | | | |r frame_idx i j| |r|out]; simpl.
  - unfold exec. rewrite set_img_dir_run. simpl.
    destruct (w_listdir w dir); by exists h.
  - destruct (decide (0 <= i < Z.of_nat (length (img_paths self)))) as [Hin|Hout].
    + destruct (set_input_image_in_range w self i Hin) as (path & _ & Hrun).
      unfold exec. rewrite Hrun. destruct (w_imread w path); by exists h.
    + unfold exec. rewrite set_input_image_out_of_range by lia. by exists h.
  - destruct r; [by exists h | done].
  - unfold reset. run_method. simpl. rewrite Hh. simpl. by eexists.
  - by exists h.
  - by exists h.
  - by exists h.
  - unfold add_point, get_sam_mask. run_method. simpl. rewrite Hh.
    destruct r; simpl; [by exists h|].
    destruct (sam_masks _ _ _ _); simpl; by eexists.
  - by exists h.
  - destruct (run_tracker_cases r self) as [_ [(e & _ & ->)|(msg & ms & _ & ->)]];
      by exists h.
  - by exists h.
Qed.

(** X9. Once [get_sam_features] has returned, the predictor session stays
    bound to the directory that was loaded at that moment, whatever is done
    afterwards short of extracting the features again: loading another
    directory does not re-open it, and reset only discards its prompts.
    From then on reset returns normally. *)
Theorem predictor_session_outlives_directory (w : world) (self : PromptGUI)
    (evs : list event) :
  Forall (λ ev, ev ≠ EvGetSamFeatures InitReturn) evs →
  let after := run_events w evs (exec (get_sam_features InitReturn) self) in
  (∃ h, inference_state after = Some h ∧ h_video_path h = img_dir self) ∧
  outcome reset after = Ok ().
Proof.
  intros Hevs. simpl.
  assert (Hgen : ∀ s h, inference_state s = Some h →
            ∃ h', inference_state (run_events w evs s) = Some h' ∧
                  h_video_path h' = h_video_path h).
  { induction Hevs as [|ev evs Hev _ IH]; intros s h Hh; simpl; [by exists h|].
    destruct (handle_event_keeps_video_path w ev s h Hev Hh) as (h1 & Hh1 & Hp1).
    destruct (IH _ _ Hh1) as (h2 & Hh2 & Hp2). exists h2.
    split; [exact Hh2 | congruence]. }
  destruct (Hgen (exec (get_sam_features InitReturn) self)
              (Handle (img_dir self) []) eq_refl) as (h' & Hh' & Hp').
  split; [by exists h'|]. by rewrite reset_outcome, Hh'.
Qed.

Lemma predictor_session_outlives_directory_witness :
  let after :=
    run_events demo_world
      [EvAddPoint demo_points_reply 0 0 0; EvSetImgDir "root/images/other";
       EvReset]
      (exec (get_sam_features InitReturn)
         (exec (set_img_dir demo_world "root/images/seq") new_PromptGUI)) in
  (∃ h, inference_state after = Some h ∧
        h_video_path h
        = img_dir (exec (set_img_dir demo_world "root/images/seq") new_PromptGUI)) ∧
  outcome reset after = Ok ().
Proof.
  apply (predictor_session_outlives_directory demo_world
           (exec (set_img_dir demo_world "root/images/seq") new_PromptGUI)
           [EvAddPoint demo_points_reply 0 0 0; EvSetImgDir "root/images/other";
            EvReset]).
  repeat constructor; discriminate.
Defined.

(** X10. Loading a directory does not clear the pending points: with a
    predictor session, the first click after the load sends the points and
    labels accumulated before it together with the new one, under object
    id 0. *)
Theorem pending_points_survive_loading (w : world) (self : PromptGUI)
    (h : handle) (dir : string) (r_ids : list Z) (r_logits : ndarray float)
    (frame_idx i j : Z) :
  inference_state self = Some h →
  let loaded := exec (set_img_dir w dir) self in
  selected_points loaded = selected_points self ∧
  selected_labels loaded = selected_labels self ∧
  inference_state
    (exec (add_point (PointsReturn r_ids r_logits) frame_idx i j) loaded)
  = Some (Handle (h_video_path h)
            (h_prompts h ++
               [Prompt frame_idx 0
                  (selected_points self ++ [(j, i)])
                  (selected_labels self ++ [cur_label_val self])])).
Proof.
  intros Hh. simpl. unfold exec at 1 2 4. rewrite set_img_dir_run.
  destruct (w_listdir w dir); simpl; (split; [reflexivity|]);
    (split; [reflexivity|]);
    unfold add_point, get_sam_mask; run_method; simpl; rewrite Hh; simpl;
    by destruct (sam_masks _ _ _ _).
Qed.

Lemma pending_points_survive_loading_witness :
  let loaded := exec (set_img_dir demo_world "root/images/other") demo_session in
  selected_points loaded = selected_points demo_session ∧
  selected_labels loaded = selected_labels demo_session ∧
  inference_state
    (exec (add_point (PointsReturn [0] demo_logits) 0 4 5) loaded)
  = Some (Handle "root/images/seq"
            ([Prompt 1 0 [(0, 0)] [1%float]] ++
               [Prompt 0 0
                  (selected_points demo_session ++ [(5, 4)])
                  (selected_labels demo_session
                     ++ [cur_label_val demo_session])])).
Proof.
  exact (pending_points_survive_loading demo_world demo_session
           (Handle "root/images/seq" [Prompt 1 0 [(0, 0)] [1%float]])
           "root/images/other" [0] demo_logits 0 4 5 eq_refl).
Defined.

(* ===================================================================== *)
(** * How the operations compose *)
(* ===================================================================== *)

Lemma add_point_handle r_ids r_logits frame_idx i j self h :
  inference_state self = Some h →
  inference_state
    (exec (add_point (PointsReturn r_ids r_logits) frame_idx i j) self)
  = Some (Handle (h_video_path h)
            (h_prompts h ++
               [Prompt frame_idx (cur_mask_idx self)
                  (selected_points self ++ [(j, i)])
                  (selected_labels self ++ [cur_label_val self])])).
Proof.
  intros Hh. unfold add_point, get_sam_mask. run_method. simpl.
  rewrite Hh. simpl. by destruct (sam_masks _ _ _ _).
Qed.

(** X11. "Add new mask" starts the next object from scratch: the first
    click after it is sent to the predictor under the next object id with
    that single point and its label, whatever points were pending before. *)
Theorem new_mask_starts_fresh_prompt (self : PromptGUI) (h : handle)
    (r_ids : list Z) (r_logits : ndarray float) (frame_idx i j : Z) :
  inference_state self = Some h →
  inference_state
    (exec (add_point (PointsReturn r_ids r_logits) frame_idx i j)
       (exec add_new_mask self))
  = Some (Handle (h_video_path h)
            (h_prompts h ++
               [Prompt frame_idx (cur_mask_idx self + 1) [(j, i)]
                  [cur_label_val self]])).
Proof.
  intros Hh.
  by rewrite (add_point_handle r_ids r_logits frame_idx i j
                (exec add_new_mask self) h Hh).
Qed.

Lemma new_mask_starts_fresh_prompt_witness :
  inference_state
    (exec (add_point (PointsReturn [0; 1] demo_two_objects) 1 8 9)
       (exec add_new_mask demo_session))
  = Some (Handle "root/images/seq"
            ([Prompt 1 0 [(0, 0)] [1%float]] ++
               [Prompt 1 (cur_mask_idx demo_session + 1) [(9, 8)]
                  [cur_label_val demo_session]])).
Proof.
  exact (new_mask_starts_fresh_prompt demo_session
           (Handle "root/images/seq" [Prompt 1 0 [(0, 0)] [1%float]])
           [0; 1] demo_two_objects 1 8 9 eq_refl).
Defined.

(** X12. Reset clears the masks and the object counter and makes the
    predictor forget its prompts, but it keeps the pending points: the first
    click after a reset sends them again, with the new point, under object
    id 0. *)
Theorem reset_keeps_pending_points (self : PromptGUI) (h : handle)
    (r_ids : list Z) (r_logits : ndarray float) (frame_idx i j : Z) :
  inference_state self = Some h →
  let cleared := exec reset self in
  selected_points cleared = selected_points self ∧
  selected_labels cleared = selected_labels self ∧
  inference_state cleared = Some (Handle (h_video_path h) []) ∧
  inference_state
    (exec (add_point (PointsReturn r_ids r_logits) frame_idx i j) cleared)
  = Some (Handle (h_video_path h)
            [Prompt frame_idx 0
               (selected_points self ++ [(j, i)])
               (selected_labels self ++ [cur_label_val self])]).
Proof.
  intros Hh. simpl.
  assert (Hreset : exec reset self
            = set_inference_state (Some (Handle (h_video_path h) []))
                (mkPromptGUI (selected_points self) (selected_labels self)
                   (cur_label_val self) 0 None 0 ∅ ∅ [] [] (img_dir self)
                   (img_paths self) (inference_state self))).
  { unfold reset. run_method. simpl. by rewrite Hh. }
  rewrite Hreset. repeat (split; [reflexivity|]).
  rewrite (add_point_handle r_ids r_logits frame_idx i j _
             (Handle (h_video_path h) [])); reflexivity.
Qed.

Lemma reset_keeps_pending_points_witness :
  let cleared := exec reset demo_session in
  selected_points cleared = selected_points demo_session ∧
  selected_labels cleared = selected_labels demo_session ∧
  inference_state cleared = Some (Handle "root/images/seq" []) ∧
  inference_state
    (exec (add_point (PointsReturn [0] demo_logits) 0 4 5) cleared)
  = Some (Handle "root/images/seq"
            [Prompt 0 0
               (selected_points demo_session ++ [(5, 4)])
               (selected_labels demo_session ++ [cur_label_val demo_session])]).
Proof.
  exact (reset_keeps_pending_points demo_session
           (Handle "root/images/seq" [Prompt 1 0 [(0, 0)] [1%float]])
           [0] demo_logits 0 4 5 eq_refl).
Defined.

(** X13. The tracked masks do not survive a directory load or a reset,
    whether these return or raise: an export right afterwards answers "No
    masks to export" and issues no file-system call. *)
Theorem export_after_load_or_reset (w : world) (self : PromptGUI)
    (dir output_dir : string) :
  save_masks_to_dir (exec (set_img_dir w dir) self) output_dir
  = (Ok no_masks_warning, []) ∧
  save_masks_to_dir (exec reset self) output_dir = (Ok no_masks_warning, []).
Proof.
  split.
  - unfold exec. rewrite set_img_dir_run. simpl.
    by destruct (w_listdir w dir).
  - unfold save_masks_to_dir.
    destruct (reset_clears self) as (_ & _ & _ & _ & _ & _ & -> & _).
    reflexivity.
Qed.

Lemma run_tracker_returns self h r :
  inference_state self = Some h →
  is_ok (outcome (run_tracker r) self) = true →
  ∃ m, track_frames (pr_frames r) ∅ = Ok m ∧
       exec (run_tracker r) self = set_color_masks_all (masks_in_order m) self.
Proof.
  intros Hh. unfold run_tracker. run_method. rewrite Hh.
  destruct (track_frames (pr_frames r) ∅) as [m|e]; simpl; [|discriminate].
  destruct (pr_error r); simpl; [discriminate|]. by exists m.
Qed.

(** X14. A propagation replaces the stored masks, it never adds to them:
    when a run returns, the object is the same whether or not another run
    (returning or raising) came just before it. *)
Theorem run_tracker_replaces (self : PromptGUI) (h : handle)
    (r r' : propagate_reply) :
  inference_state self = Some h →
  is_ok (outcome (run_tracker r) self) = true →
  exec (run_tracker r) (exec (run_tracker r') self) = exec (run_tracker r) self ∧
  is_ok (outcome (run_tracker r) (exec (run_tracker r') self)) = true.
Proof.
  intros Hh Hok.
  destruct (run_tracker_returns self h r Hh Hok) as (m & Hm & Hrun).
  assert (Hprev : ∃ ms, exec (run_tracker r') self = self ∨
                        exec (run_tracker r') self = set_color_masks_all ms self).
  { destruct (run_tracker_cases r' self) as [_ [(e & _ & ->)|(msg & ms & _ & ->)]];
      [exists [] | exists ms]; auto. }
  destruct Hprev as (ms & [->| ->]); [by split|].
  clear Hrun. unfold run_tracker in *. revert Hok. run_method. simpl.
  rewrite Hh, Hm. simpl. by destruct (pr_error r).
Qed.

Lemma run_tracker_replaces_witness :
  exec (run_tracker demo_propagation)
    (exec (run_tracker demo_propagation_no_object) demo_session)
  = exec (run_tracker demo_propagation) demo_session ∧
  is_ok (outcome (run_tracker demo_propagation)
           (exec (run_tracker demo_propagation_no_object) demo_session)) = true.
Proof.
  apply (run_tracker_replaces demo_session
           (Handle "root/images/seq" [Prompt 1 0 [(0, 0)] [1%float]])
           demo_propagation demo_propagation_no_object).
  - vm_compute. reflexivity.
  - vm_compute. reflexivity.
Defined.

(** ** The stored masks are binary *)

Lemma frame_grayscale_binary f g : frame_grayscale f = Ok g → binary_mask g.
Proof.
  unfold frame_grayscale. destruct (bool_masks f) as [masks|]; [|discriminate].
  cbn [mbind result_bind]. destruct (np_any_axis0 masks) as [b|]; [|discriminate].
  cbn [mbind result_bind mret result_ret]. intros [= <-].
  unfold binary_mask. simpl. apply Forall_fmap, Forall_forall.
  intros [] _; simpl; auto.
Qed.

Lemma track_frames_binary frames m0 m :
  map_Forall (λ _ g, binary_mask g) m0 →
  track_frames frames m0 = Ok m →
  map_Forall (λ _ g, binary_mask g) m.
Proof.
  revert m0. induction frames as [|f frames IH]; intros m0 Hm0 Hrun.
  - simpl in Hrun. by inversion Hrun; subst.
  - cbn [track_frames] in Hrun.
    destruct (frame_grayscale f) as [g|] eqn:Hg; [|discriminate].
    cbn [mbind result_bind] in Hrun. apply (IH _) in Hrun; [done|].
    apply map_Forall_insert_2; [|done]. by apply frame_grayscale_binary in Hg.
Qed.

Lemma masks_in_order_binary m :
  map_Forall (λ _ g, binary_mask g) m → Forall binary_mask (masks_in_order m).
Proof.
  intros Hm. unfold masks_in_order. apply Forall_forall. intros g Hg.
  apply list_elem_of_omap in Hg as (k & _ & Hk). by apply (Hm k).
Qed.

Lemma run_tracker_state r self :
  exec (run_tracker r) self = self ∨
  ∃ m, track_frames (pr_frames r) ∅ = Ok m ∧
       exec (run_tracker r) self = set_color_masks_all (masks_in_order m) self.
Proof.
  unfold run_tracker. run_method.
  destruct (inference_state self); [|by left].
  destruct (track_frames _ _) as [m|]; simpl; [|by left].
  destruct (pr_error r); simpl; [by left | right; eauto].
Qed.

Lemma handle_event_masks_binary w ev self :
  Forall binary_mask (color_masks_all self) →
  Forall binary_mask (color_masks_all (handle_event w ev self)).
Proof.
  intros Hbin.
  destruct ev as [dir|i|r| | | | |r frame_idx i j| |r|out]; simpl.
  - unfold exec. rewrite set_img_dir_run. simpl.
    by destruct (w_listdir w dir).
  - destruct (decide (0 <= i < Z.of_nat (length (img_paths self)))) as [Hin|Hout].
    + destruct (set_input_image_in_range w self i Hin) as (path & _ & Hrun).
      unfold exec. rewrite Hrun. by destruct (w_imread w path).
    + unfold exec. by rewrite set_input_image_out_of_range by lia.
  - by destruct r.
  - destruct (reset_clears self) as (_ & _ & _ & _ & _ & _ & -> & _).
    constructor.
  - done.
  - done.
  - done.
  - by destruct (add_point_state r frame_idx i j self) as [st ->].
  - done.
  - destruct (run_tracker_state r self) as [-> | (m & Hm & ->)]; [done|].
    simpl. apply masks_in_order_binary.
    by apply (track_frames_binary (pr_frames r) ∅ m).
  - done.
Qed.

(** X15. In every reachable state each stored mask holds the values 0 and
    255 only, whatever logits the predictor yielded and whatever the shapes
    of its arrays: the only writer of [color_masks_all] is [run_tracker],
    which stores inverted boolean arrays scaled by 255. *)
Theorem stored_masks_binary (w : world) (evs : list event) :
  Forall binary_mask (color_masks_all (run_events w evs new_PromptGUI)).
Proof.
  assert (Hgen : ∀ self, Forall binary_mask (color_masks_all self) →
                   Forall binary_mask (color_masks_all (run_events w evs self))).
  { induction evs as [|ev evs IH]; intros self Hs; simpl; [done|].
    by apply IH, handle_event_masks_binary. }
  apply Hgen. constructor.
Qed.

(* ===================================================================== *)
(** * Export when masks and frames do not match *)
(* ===================================================================== *)





Example save_masks_short_demo :
  length (img_paths demo_tracked_short) = 3%nat ∧
  save_masks_to_dir demo_tracked_short "out"
  = (Ok "Saved 2 masks to out!",
     [Makedirs "out";
      Imwrite "out/00001.mask.png" (NdArray [2; 2]%nat [0; 255; 255; 255]);
      Imwrite "out/00002.mask.png" (NdArray [2; 2]%nat [0; 0; 0; 0])]).
Proof. vm_compute. split; reflexivity. Qed.



(* ===================================================================== *)
(** * File names: extensions, stems and mask names *)
(* ===================================================================== *)

(** ** Slices and searches on strings *)

Lemma substring_all (p : string) :
  String.substring 0 (String.length p) p = p.
Proof. induction p as [|c p IH]; simpl; [reflexivity | by rewrite IH]. Qed.

Lemma string_app_cons c (s t : string) : String c s +:+ t = String c (s +:+ t).
Proof. reflexivity. Qed.

Lemma substring_0_app_rest (n : nat) (p : string) :
  String.substring 0 n p +:+ String.substring n (String.length p - n) p = p.
Proof.
  revert p. induction n as [|n IH]; intros p.
  - rewrite Nat.sub_0_r, substring_all. by destruct p.
  - destruct p as [|c p]; [reflexivity|].
    cbn [String.substring String.length Nat.sub].
    by rewrite string_app_cons, IH.
Qed.

Lemma str_take_drop (i : Z) (p : string) : str_take i p +:+ str_drop i p = p.
Proof. apply substring_0_app_rest. Qed.

Lemma substring_app_skip (s t : string) (k m : nat) :
  String.substring (String.length s + k) m (s +:+ t) = String.substring k m t.
Proof.
  induction s as [|c s IH]; [reflexivity|].
  rewrite string_app_cons. exact IH.
Qed.

Lemma length_app_string (s t : string) :
  String.length (s +:+ t) = (String.length s + String.length t)%nat.
Proof.
  induction s as [|c s IH]; [reflexivity|].
  rewrite string_app_cons. simpl. by rewrite IH.
Qed.

Lemma get_app_skip (s t : string) (k : nat) :
  String.get (String.length s + k) (s +:+ t) = String.get k t.
Proof.
  induction s as [|c s IH]; [reflexivity|].
  rewrite string_app_cons. exact IH.
Qed.

Lemma length_lower (p : string) : String.length (lower p) = String.length p.
Proof. induction p as [|c p IH]; simpl; [reflexivity | by rewrite IH]. Qed.

Lemma lower_app (s t : string) : lower (s +:+ t) = lower s +:+ lower t.
Proof.
  induction s as [|c s IH]; [reflexivity|].
  rewrite string_app_cons. simpl. by rewrite IH.
Qed.

Lemma rfind_from_app c s t i last :
  rfind_from c (s +:+ t) i last
  = rfind_from c t (i + Z.of_nat (String.length s)) (rfind_from c s i last).
Proof.
  revert i last. induction s as [|d s IH]; intros i last.
  - simpl. by rewrite Z.add_0_r.
  - rewrite string_app_cons. simpl. rewrite IH. f_equal. lia.
Qed.

(** [rfind] returns the position of the last occurrence. *)
Lemma rfind_from_spec c p i last :
  let r := rfind_from c p i last in
  (r = last ∧ ∀ k, String.get k p ≠ Some c) ∨
  (i <= r < i + Z.of_nat (String.length p) ∧
   String.get (Z.to_nat (r - i)) p = Some c ∧
   ∀ k, (Z.to_nat (r - i) < k)%nat → String.get k p ≠ Some c).
Proof.
  revert i last. induction p as [|d p IH]; intros i last; simpl.
  - left. split; [reflexivity | done].
  - destruct (IH (i + 1) (if Ascii.eqb d c then i else last))
      as [[Hr Hnone]|(Hr & Hget & Hlast)].
    + destruct (Ascii.eqb_spec d c) as [->|Hne].
      * right. rewrite Hr, Z.sub_diag. simpl. split; [lia|]. split; [done|].
        intros [|k] Hk; [lia | apply Hnone].
      * left. split; [exact Hr|]. intros [|k]; [congruence | apply Hnone].
    + right. split; [lia|].
      replace (Z.to_nat (rfind_from c p (i + 1)
                           (if Ascii.eqb d c then i else last) - i))
        with (S (Z.to_nat (rfind_from c p (i + 1)
                             (if Ascii.eqb d c then i else last) - (i + 1))))
        by lia.
      split; [exact Hget|]. intros [|k] Hk; [lia|]. apply Hlast. lia.
Qed.

Lemma rfind_spec c p :
  (rfind c p = -1 ∧ ∀ k, String.get k p ≠ Some c) ∨
  (0 <= rfind c p < Z.of_nat (String.length p) ∧
   String.get (Z.to_nat (rfind c p)) p = Some c ∧
   ∀ k, (Z.to_nat (rfind c p) < k)%nat → String.get k p ≠ Some c).
Proof.
  pose proof (rfind_from_spec c p 0 (-1)) as H. simpl in H.
  rewrite Z.sub_0_r in H. exact H.
Qed.

Lemma lower_ascii_dot d : Ascii.eqb (lower_ascii d) "." = Ascii.eqb d ".".
Proof. by destruct d as [[] [] [] [] [] [] [] []]. Qed.

Lemma lower_ascii_slash d : Ascii.eqb (lower_ascii d) "/" = Ascii.eqb d "/".
Proof. by destruct d as [[] [] [] [] [] [] [] []]. Qed.

Lemma rfind_from_lower c p i last :
  (∀ d, Ascii.eqb (lower_ascii d) c = Ascii.eqb d c) →
  rfind_from c (lower p) i last = rfind_from c p i last.
Proof.
  intros Hc. revert i last. induction p as [|d p IH]; intros i last; simpl;
    [reflexivity|]. by rewrite Hc, IH.
Qed.

Lemma get_lower k p : String.get k (lower p) = lower_ascii <$> String.get k p.
Proof.
  revert k. induction p as [|d p IH]; intros [|k]; simpl; try reflexivity.
  apply IH.
Qed.

Lemma has_non_dot_lower p lo hi : has_non_dot (lower p) lo hi = has_non_dot p lo hi.
Proof.
  unfold has_non_dot. apply existsb_ext_in. intros k _.
  rewrite get_lower. destruct (String.get k p) as [d|]; simpl; [|reflexivity].
  by rewrite lower_ascii_dot.
Qed.

Lemma substring_lower n m p :
  String.substring n m (lower p) = lower (String.substring n m p).
Proof.
  revert n m. induction p as [|d p IH]; intros [|n] [|m]; simpl;
    try reflexivity; by rewrite IH.
Qed.

(** Lowercasing commutes with [splitext]. *)
Lemma splitext_lower p :
  splitext (lower p) = (lower (splitext p).1, lower (splitext p).2).
Proof.
  unfold splitext, rfind.
  rewrite !rfind_from_lower by (apply lower_ascii_dot || apply lower_ascii_slash).
  rewrite has_non_dot_lower.
  destruct (_ && _); simpl; [|reflexivity].
  unfold str_take, str_drop. by rewrite length_lower, !substring_lower.
Qed.

(** ** Extensions *)

Lemma get_beyond (p : string) (n : nat) :
  (String.length p ≤ n)%nat → String.get n p = None.
Proof.
  revert n. induction p as [|c p IH]; intros n Hn; [by destruct n|].
  destruct n as [|n]; simpl in *; [lia|]. apply IH. lia.
Qed.

Lemma get_str_drop (i k : nat) (p : string) :
  String.get k (str_drop (Z.of_nat i) p) = String.get (i + k) p.
Proof.
  unfold str_drop. rewrite Nat2Z.id.
  destruct (decide (k < String.length p - i)%nat) as [Hk|Hk].
  - rewrite (substring_correct1 p i (String.length p - i) k Hk).
    f_equal. lia.
  - rewrite (substring_correct2 p i (String.length p - i) k) by lia.
    symmetry. apply get_beyond. lia.
Qed.

Lemma string_app_nil_r (p : string) : p +:+ "" = p.
Proof.
  induction p as [|c p IH]; [reflexivity|].
  by rewrite string_app_cons, IH.
Qed.

Lemma splitext_concat (p : string) : (splitext p).1 +:+ (splitext p).2 = p.
Proof.
  unfold splitext. destruct (_ && _); simpl;
    [apply str_take_drop | apply string_app_nil_r].
Qed.

(** X18. [splitext] cuts a path in two parts that give the path back when
    concatenated; the extension is empty, or it starts with a dot and
    contains no further dot and no slash. *)
Theorem splitext_parts (p : string) :
  (splitext p).1 +:+ (splitext p).2 = p ∧
  ((splitext p).2 = "" ∨
   (String.get 0 (splitext p).2 = Some "."%char ∧
    ∀ k, (0 < k)%nat →
      String.get k (splitext p).2 ≠ Some "."%char ∧
      String.get k (splitext p).2 ≠ Some "/"%char)).
Proof.
  unfold splitext.
  destruct ((rfind "/" p <? rfind "." p) && has_non_dot p (rfind "/" p + 1) (rfind "." p))
    eqn:Hcond; simpl.
  2:{ split; [apply string_app_nil_r | by left]. }
  split; [apply str_take_drop|]. right.
  apply andb_true_iff in Hcond as [Hlt _]. apply Z.ltb_lt in Hlt.
  destruct (rfind_spec "." p) as [[Hnone _]|(Hdot & Hget & Hlast)].
  { destruct (rfind_spec "/" p) as [[Hs _]|(Hs & _)]; lia. }
  rewrite <- (Z2Nat.id (rfind "." p)) by lia.
  split.
  - by rewrite get_str_drop, Nat.add_0_r.
  - intros k Hk. rewrite get_str_drop. split; [apply Hlast; lia|].
    destruct (rfind_spec "/" p) as [[_ Hnone]|(Hs & _ & Hslast)];
      [apply Hnone | apply Hslast; lia].
Qed.

Example splitext_examples :
  splitext "clip.tar.gz" = ("clip.tar", ".gz") ∧
  splitext ".hidden" = (".hidden", "") ∧
  splitext "a.d/name" = ("a.d/name", "") ∧
  splitext "name." = ("name", ".").
Proof. repeat split. Qed.

(** ** The names of the exported masks *)

(** Every name that ends in [.mask.png], the suffix given to the exported
    masks, passes the image filter. *)
Lemma isimage_mask_name (s : string) : isimage (s +:+ ".mask.png") = true.
Proof.
  unfold isimage. rewrite lower_app. set (t := lower s).
  change (lower ".mask.png") with ".mask.png".
  assert (Hdot : rfind "." (t +:+ ".mask.png")
                 = Z.of_nat (String.length t) + 5).
  { unfold rfind. rewrite rfind_from_app. simpl. lia. }
  assert (Hsep : rfind "/" (t +:+ ".mask.png") < Z.of_nat (String.length t)).
  { unfold rfind. rewrite rfind_from_app. simpl.
    destruct (rfind_spec "/" t) as [[Hs _]|(Hs & _)]; unfold rfind in Hs; lia. }
  assert (Hsep' : -1 <= rfind "/" (t +:+ ".mask.png")).
  { unfold rfind. rewrite rfind_from_app. simpl.
    destruct (rfind_spec "/" t) as [[Hs _]|(Hs & _)]; unfold rfind in Hs; lia. }
  unfold splitext. rewrite Hdot.
  assert (Hnon : has_non_dot (t +:+ ".mask.png")
                   (rfind "/" (t +:+ ".mask.png") + 1)
                   (Z.of_nat (String.length t) + 5) = true).
  { unfold has_non_dot. apply existsb_exists.
    exists (String.length t + 1)%nat. split.
    - apply in_seq. lia.
    - by rewrite get_app_skip. }
  rewrite Hnon. rewrite (proj2 (Z.ltb_lt _ _)) by lia. simpl.
  unfold str_drop.
  replace (Z.to_nat (Z.of_nat (String.length t) + 5))
    with (String.length t + 5)%nat by lia.
  rewrite substring_app_skip, length_app_string.
  replace (String.length t + String.length ".mask.png" - (String.length t + 5))%nat
    with 4%nat by (simpl; lia).
  reflexivity.
Qed.

Lemma write_masks_event_names output_dir pairs ev :
  ev ∈ (write_masks output_dir pairs).2 →
  ∃ p m, ev = Imwrite (output_dir +:+ "/" +:+ stem p +:+ ".mask.png") m.
Proof.
  induction pairs as [|[p m] pairs IH]; simpl; [by intros ?%not_elem_of_nil|].
  destruct (decide (ndim m ≠ 2%nat)); simpl; [by intros ?%not_elem_of_nil|].
  destruct (write_masks output_dir pairs) as [r evs]. simpl in *.
  intros [->|Hin]%elem_of_cons; [by exists p, m | by apply IH].
Qed.

(** X19. With the default names the masks of a sequence are written into
    the directory of its frames, and every mask file written there is taken
    for a frame by the next load of that directory that finds it. *)
Theorem exported_masks_reload_as_frames (w : world) (self self' : PromptGUI)
    (root_dir seq_name : string) (entries : list string)
    (path : string) (mask : ndarray Z) :
  let dir := get_mask_dir root_dir default_mask_name seq_name in
  dir = (select_image_dir root_dir default_img_name seq_name).2 ∧
  (Imwrite path mask ∈ (save_masks_to_dir self dir).2 →
   ∃ name, path = dir +:+ "/" +:+ name ∧ isimage name = true ∧
     (w_listdir w dir = Some entries → name ∈ entries →
      path ∈ img_paths (exec (set_img_dir w dir) self'))).
Proof.
  simpl. split; [reflexivity|].
  set (dir := get_mask_dir root_dir default_mask_name seq_name).
  intros Hin.
  assert (Hev : ∃ p m, Imwrite path mask
                       = Imwrite (dir +:+ "/" +:+ stem p +:+ ".mask.png") m).
  { unfold save_masks_to_dir in Hin.
    destruct (color_masks_all self) as [|m0 ms]; simpl in Hin;
      [by apply not_elem_of_nil in Hin|].
    destruct (negb _); simpl in Hin; [by apply not_elem_of_nil in Hin|].
    destruct (write_masks dir (zip (img_paths self) (m0 :: ms))) as [r evs] eqn:Hw.
    simpl in Hin. apply elem_of_cons in Hin as [Hmk|Hin]; [discriminate|].
    apply (write_masks_event_names dir (zip (img_paths self) (m0 :: ms))).
    by rewrite Hw. }
  destruct Hev as (p & m & Hev). inversion Hev; subst.
  exists (stem p +:+ ".mask.png"). split; [reflexivity|].
  split; [apply isimage_mask_name|].
  intros Hls Hname. unfold exec. rewrite set_img_dir_run, Hls. simpl.
  apply list_elem_of_fmap. exists (stem p +:+ ".mask.png").
  split; [reflexivity|]. apply list_elem_of_filter. split.
  - by rewrite isimage_mask_name.
  - unfold sorted. by rewrite merge_sort_Permutation.
Qed.

Lemma exported_masks_reload_as_frames_witness :
  "root/images/seq/00001.mask.png"
  ∈ img_paths (exec (set_img_dir demo_world_after_export "root/images/seq")
                 new_PromptGUI).
Proof.
  destruct (proj2 (exported_masks_reload_as_frames demo_world_after_export
                     demo_tracked new_PromptGUI "root" "seq"
                     ["00001.mask.png"; "00001.png"; "00002.mask.png";
                      "00002.png"; "00003.JPG"; "00003.mask.png"]
                     "root/images/seq/00001.mask.png"
                     (NdArray [2; 2]%nat [0; 255; 255; 255])))
    as (name & Hpath & _ & Hload).
  - vm_compute. right. left.
  - assert (Hname : name = "00001.mask.png").
    { change "root/images/seq/00001.mask.png"
        with ("root/images/seq" +:+ "/" +:+ "00001.mask.png") in Hpath.
      change (get_mask_dir "root" default_mask_name "seq")
        with "root/images/seq" in Hpath.
      apply (inj (String.app "root/images/seq")) in Hpath.
      apply (inj (String.app "/")) in Hpath. by symmetry. }
    subst name. apply Hload; [reflexivity | left].
Defined.

(** ** The stem of a frame *)

Lemma rfind_no_occurrence c p i last :
  (∀ k, String.get k p ≠ Some c) → rfind_from c p i last = last.
Proof.
  revert i last. induction p as [|d p IH]; intros i last Hnone; [reflexivity|].
  simpl. destruct (Ascii.eqb_spec d c) as [->|Hne].
  - by destruct (Hnone 0%nat).
  - apply IH. intros k. apply (Hnone (S k)).
Qed.

Lemma path_name_entry dir p :
  (∀ k, String.get k p ≠ Some "/"%char) → path_name (dir +:+ "/" +:+ p) = p.
Proof.
  intros Hp. unfold path_name, rfind.
  rewrite rfind_from_app.
  change ("/" +:+ p) with (String "/"%char p). simpl.
  rewrite rfind_no_occurrence by exact Hp.
  unfold str_drop.
  replace (Z.to_nat (0 + Z.of_nat (String.length dir) + 1))
    with (String.length dir + 1)%nat by lia.
  rewrite substring_app_skip, length_app_string. simpl.
  replace (String.length dir + S (String.length p) - (String.length dir + 1))%nat
    with (String.length p) by lia.
  apply substring_all.
Qed.

Lemma length_str_drop (i : nat) (p : string) :
  String.length (str_drop (Z.of_nat i) p) = (String.length p - i)%nat.
Proof.
  unfold str_drop. rewrite Nat2Z.id. revert i.
  induction p as [|c p IH]; intros [|i]; simpl; try reflexivity.
  - by rewrite substring_all.
  - apply IH.
Qed.

(** X20. For a frame [dir/p] whose entry [p] passed the image filter, the
    stem used for the mask file is [p] without its extension: the mask of
    frame [<stem><ext>] is written as [<stem>.mask.png], where [<ext>] is
    .png, .jpg or .jpeg in any letter case. *)
Theorem stem_of_frame (dir p : string) :
  (∀ k, String.get k p ≠ Some "/"%char) →
  isimage p = true →
  stem (dir +:+ "/" +:+ p) = (splitext p).1 ∧
  (splitext p).1 +:+ (splitext p).2 = p ∧
  lower (splitext p).2 ∈ [".png"; ".jpg"; ".jpeg"].
Proof.
  intros Hslash Himg.
  assert (Hext : lower (splitext p).2 ∈ [".png"; ".jpg"; ".jpeg"]).
  { apply Is_true_true, isimage_spec in Himg. by rewrite splitext_lower in Himg. }
  split; [|split; [apply splitext_concat | exact Hext]].
  unfold stem. rewrite path_name_entry by exact Hslash.
  unfold splitext in *.
  assert (Hsep : rfind "/" p = -1).
  { unfold rfind. by apply rfind_no_occurrence. }
  rewrite Hsep in *.
  destruct ((-1 <? rfind "." p) && has_non_dot p (-1 + 1) (rfind "." p))
    eqn:Hcond; simpl in *.
  2:{ exfalso.
      repeat (apply elem_of_cons in Hext as [Hext|Hext]; [discriminate|]).
      by apply not_elem_of_nil in Hext. }
  apply andb_true_iff in Hcond as [Hdot Hnon]. apply Z.ltb_lt in Hdot.
  assert (Hpos : 0 < rfind "." p).
  { unfold has_non_dot in Hnon. apply existsb_exists in Hnon as (k & Hk & _).
    apply in_seq in Hk. lia. }
  assert (Hlen : (4 ≤ String.length (str_drop (rfind "." p) p))%nat).
  { rewrite <- length_lower.
    repeat (apply elem_of_cons in Hext as [->|Hext]; [simpl; lia|]).
    by apply not_elem_of_nil in Hext. }
  rewrite <- (Z2Nat.id (rfind "." p)) in Hlen by lia.
  rewrite length_str_drop in Hlen.
  rewrite (proj2 (Z.ltb_lt _ _) Hpos), (proj2 (Z.ltb_lt _ _)) by lia.
  reflexivity.
Qed.

Lemma stem_of_frame_witness :
  stem ("root/images/seq" +:+ "/" +:+ "00003.JPG") = (splitext "00003.JPG").1 ∧
  (splitext "00003.JPG").1 +:+ (splitext "00003.JPG").2 = "00003.JPG" ∧
  lower (splitext "00003.JPG").2 ∈ [".png"; ".jpg"; ".jpeg"].
Proof.
  apply (stem_of_frame "root/images/seq" "00003.JPG").
  - intros k. do 10 (destruct k as [|k]; [discriminate|]). discriminate.
  - reflexivity.
Defined.

(** Two frames that differ only in their extension share one mask file. *)
Example stem_collision :
  stem "d/0001.png" +:+ ".mask.png" = stem "d/0001.jpg" +:+ ".mask.png".
Proof. reflexivity. Qed.

(* ===================================================================== *)
(** * The handlers of [make_demo] *)
(* ===================================================================== *)

(** ** Time stamps *)







(** ** Extracting frames *)



Example extract_frames_demo :
  (extract_frames (λ _, false) demo_world "root" "videos" "images" "clip.mp4"
     0 75 30 540 "png").2
  = [OsMakedirs "root/images/clip";
     Print "ffmpeg -ss 00:00:00 -to 00:01:15 -i root/videos/clip.mp4 -vf 'scale=-1:540,fps=30' root/images/clip/%05d.png";
     SubprocessCall "ffmpeg -ss 00:00:00 -to 00:01:15 -i root/videos/clip.mp4 -vf 'scale=-1:540,fps=30' root/images/clip/%05d.png"].
Proof. vm_compute. reflexivity. Qed.

(** ** The frame slider *)

(** X23. After [update_image_dir] on a listable directory the slider
    maximum is the number of frames minus one (so -1 for a directory without
    images), and every slider position from 0 to that maximum selects a
    frame: [set_input_image] takes it as the frame index. *)
Theorem slider_positions_select_frames (w : world) (self : PromptGUI)
    (root_dir img_name seq_name : string) (entries : list string) :
  let dir := (select_image_dir root_dir img_name seq_name).2 in
  w_listdir w dir = Some entries →
  let loaded := exec (update_image_dir w root_dir img_name seq_name) self in
  ∃ message,
    outcome (update_image_dir w root_dir img_name seq_name) self
    = Ok (Z.of_nat (length (filter isimage entries)) - 1, message) ∧
    ∀ i, 0 <= i <= Z.of_nat (length (filter isimage entries)) - 1 →
         frame_index (exec (set_input_image w i) loaded) = i.
Proof.
  simpl. intros Hls.
  assert (Hcount : length (filter isimage (sorted entries))
                   = length (filter isimage entries)).
  { unfold sorted. by rewrite merge_sort_Permutation. }
  unfold update_image_dir. run_method.
  rewrite set_img_dir_run, Hls. cbn [fst snd].
  rewrite length_fmap, Hcount.
  eexists. split; [reflexivity|].
  intros i Hi.
  match goal with |- frame_index (set_input_image w i ?s).2 = i =>
    destruct (set_input_image_in_range w s i) as (path & _ & Hrun) end.
  { simpl. rewrite length_fmap, Hcount. lia. }
  rewrite Hrun. by destruct (w_imread w path).
Qed.

Lemma slider_positions_select_frames_witness :
  ∃ message,
    outcome (update_image_dir demo_world "root" "images" "seq") new_PromptGUI
    = Ok (Z.of_nat (length (filter isimage
                     ["00002.png"; "notes.txt"; "00001.png"; "00003.JPG"])) - 1,
          message) ∧
    ∀ i, 0 <= i <= Z.of_nat (length (filter isimage
                     ["00002.png"; "notes.txt"; "00001.png"; "00003.JPG"])) - 1 →
         frame_index
           (exec (set_input_image demo_world i)
              (exec (update_image_dir demo_world "root" "images" "seq")
                 new_PromptGUI)) = i.
Proof.
  exact (slider_positions_select_frames demo_world new_PromptGUI "root" "images"
           "seq" ["00002.png"; "notes.txt"; "00001.png"; "00003.JPG"] eq_refl).
Defined.

(* ===================================================================== *)
(** * The helpers at their defaults and at their edges *)
(* ===================================================================== *)

(** ** The default blend *)

Lemma compose_half_check_all :
  forallb (λ x, forallb (compose_half_check x) all_uint8) all_uint8 = true.
Proof. vm_compute. reflexivity. Qed.

Lemma compose_half_uint8 x c :
  is_uint8 x → is_uint8 c →
  (x + c) `div` 2 - 1 <= compose_pixel 0.5 x c <= (x + c) `div` 2 ∧
  (c = 0 → compose_pixel 0.5 x c = x `div` 2).
Proof.
  intros Hx Hc.
  pose proof (proj1 (forallb_forall
                       (λ x, forallb (compose_half_check x) all_uint8) all_uint8)
                compose_half_check_all x (elem_of_all_uint8 x Hx)) as Hrow.
  pose proof (proj1 (forallb_forall (compose_half_check x) all_uint8) Hrow c
                (elem_of_all_uint8 c Hc)) as Hcheck.
  unfold compose_half_check in Hcheck.
  apply andb_true_iff in Hcheck as [Hbounds Hzero].
  apply andb_true_iff in Hbounds as [Hlo%Z.leb_le Hhi%Z.leb_le].
  split; [lia|]. intros ->.
  apply orb_true_iff in Hzero as [Hz|Hz%Z.eqb_eq]; [discriminate | exact Hz].
Qed.

(** X24. With the default blend factor 0.5, on a uint8 image and color mask
    of one shape, [compose_img_mask] returns at every position the mean of
    the two values rounded down, or one below it; where the color mask is
    black (the background of the palette) the result is exactly half the
    image value, rounded down. *)
Theorem compose_img_mask_default_blend (img color_mask : ndarray Z) :
  shape img = shape color_mask →
  Forall is_uint8 (data img) → Forall is_uint8 (data color_mask) →
  ∃ out,
    compose_img_mask img color_mask 0.5 = Ok out ∧
    ∀ p x c v,
      data img !! p = Some x → data color_mask !! p = Some c →
      data out !! p = Some v →
      (x + c) `div` 2 - 1 <= v <= (x + c) `div` 2 ∧ (c = 0 → v = x `div` 2).
Proof.
  intros Hshape Hi Hc. unfold compose_img_mask.
  destruct (decide (shape img = shape color_mask)) as [_|Hn]; [|contradiction].
  eexists. split; [reflexivity|]. simpl.
  intros p x c v Hx Hcx Hv.
  apply lookup_zip_with_Some in Hv as (x' & c' & -> & Hx' & Hc').
  rewrite Hx in Hx'. rewrite Hcx in Hc'. simplify_eq.
  apply compose_half_uint8.
  - rewrite Forall_forall in Hi. eapply Hi, list_elem_of_lookup_2, Hx.
  - rewrite Forall_forall in Hc. eapply Hc, list_elem_of_lookup_2, Hcx.
Qed.

Lemma compose_img_mask_default_blend_witness :
  ∃ out,
    compose_img_mask (NdArray [1; 1; 3]%nat [1; 200; 31])
      (NdArray [1; 1; 3]%nat [65; 216; 0]) 0.5 = Ok out ∧
    ∀ p x c v,
      data (NdArray [1; 1; 3]%nat [1; 200; 31]) !! p = Some x →
      data (NdArray [1; 1; 3]%nat [65; 216; 0]) !! p = Some c →
      data out !! p = Some v →
      (x + c) `div` 2 - 1 <= v <= (x + c) `div` 2 ∧ (c = 0 → v = x `div` 2).
Proof.
  apply (compose_img_mask_default_blend
           (NdArray [1; 1; 3]%nat [1; 200; 31])
           (NdArray [1; 1; 3]%nat [65; 216; 0])).
  - reflexivity.
  - repeat constructor; unfold is_uint8; lia.
  - repeat constructor; unfold is_uint8; lia.
Defined.

(** The mean of 1 and 65 is 33, and the blend gives 32. *)
Example compose_img_mask_below_mean :
  compose_img_mask (NdArray [1; 1; 3]%nat [1; 200; 31])
    (NdArray [1; 1; 3]%nat [65; 216; 0]) 0.5
  = Ok (NdArray [1; 1; 3]%nat [32; 208; 15]).
Proof. vm_compute. reflexivity. Qed.

(** ** Small and empty palettes *)

Lemma get_hls_palette_with_length (n : Z) (lightness saturation : float) :
  -1 <= n →
  ∃ palette,
    get_hls_palette_with n lightness saturation = Ok palette ∧
    Z.of_nat (length palette) = Z.max 1 n ∧
    palette !! 0%nat = Some (0, 0, 0).
Proof.
  intros Hn. unfold get_hls_palette_with.
  destruct (linspace01_length (n + 1)) as (hues & Hhues & Hlen); [lia|].
  rewrite Hhues. cbn [mbind result_bind mret result_ret].
  eexists. split; [reflexivity|]. split.
  - rewrite length_fmap. cbn [length].
    rewrite length_fmap, slice_1_m1_length, Hlen. lia.
  - cbn [fmap list_fmap lookup list_lookup]. by rewrite black_to_uint8.
Qed.

(** X25. A palette is never empty: for [n] of 0 or -1 the result is the
    single black entry, and for every [n >= -1] it has [max(1, n)] entries
    starting with black; for [n < -1] the call raises ValueError (from
    [np.linspace]). *)
Theorem get_hls_palette_never_empty (n : Z) (lightness saturation : float) :
  (-1 <= n →
   ∃ palette,
     get_hls_palette_with n lightness saturation = Ok palette ∧
     Z.of_nat (length palette) = Z.max 1 n ∧
     palette !! 0%nat = Some (0, 0, 0)) ∧
  (n < -1 →
   get_hls_palette_with n lightness saturation
   = Raise (ValueError "Number of samples must be non-negative")).
Proof.
  split; [apply get_hls_palette_with_length|].
  intros Hn. unfold get_hls_palette_with, linspace01.
  by rewrite (proj2 (Z.ltb_lt (n + 1) 0)) by lia.
Qed.

Lemma get_hls_palette_never_empty_witness :
  (∃ palette,
     get_hls_palette 0 = Ok palette ∧
     Z.of_nat (length palette) = Z.max 1 0 ∧
     palette !! 0%nat = Some (0, 0, 0)) ∧
  get_hls_palette (-2) = Raise (ValueError "Number of samples must be non-negative").
Proof.
  split.
  - apply (proj1 (get_hls_palette_never_empty 0 0.5%float (7 / 10)%float)). lia.
  - apply (proj2 (get_hls_palette_never_empty (-2) 0.5%float (7 / 10)%float)). lia.
Defined.

(** ** Distinct colors *)

Lemma palette_distinct_all :
  forallb palette_distinct (Z.of_nat <$> seq 1 64) = true.
Proof. vm_compute. reflexivity. Qed.

(** X26. For every number of colors from 1 to 64 the default palette is
    returned and its colors are pairwise distinct: no two objects share a
    color and none has the black of the background. *)
Theorem get_hls_palette_distinct (n : Z) :
  1 <= n <= 64 →
  ∃ palette, get_hls_palette n = Ok palette ∧ NoDup palette ∧
             ∀ k, (0 < k)%nat → palette !! k ≠ Some (0, 0, 0).
Proof.
  intros Hn.
  pose proof (proj1 (forallb_forall _ _) palette_distinct_all n) as Hall.
  assert (Hd : palette_distinct n = true).
  { apply Hall, in_map_iff. exists (Z.to_nat n). split; [lia|].
    apply in_seq. lia. }
  unfold palette_distinct in Hd.
  destruct (get_hls_palette_with_length n 0.5%float (7 / 10)%float)
    as (palette & Hp & _ & Hblack); [lia|].
  fold (get_hls_palette n) in Hp. rewrite Hp in Hd.
  apply bool_decide_eq_true in Hd.
  exists palette. split; [exact Hp|]. split; [exact Hd|].
  intros k Hk Hkb.
  assert (k = 0%nat) by (eapply NoDup_lookup; eauto). lia.
Qed.

Lemma get_hls_palette_distinct_witness :
  ∃ palette, get_hls_palette 12 = Ok palette ∧ NoDup palette ∧
             ∀ k, (0 < k)%nat → palette !! k ≠ Some (0, 0, 0).
Proof. apply (get_hls_palette_distinct 12). lia. Defined.
